(** * enc_png: writing a PNG stream to memory

    A shallow embedding of [src/enc_png.c] (NCEPLIBS-g2).  The file contains
    one public function, [enc_png], and two callbacks, [user_write_data] and
    [user_flush_data], that redirect the output of the PNG library to a
    caller-supplied memory buffer.

    The PNG library itself (libpng) is not part of the repository.  It is
    represented by a [libpng] record that fixes, for one call, what every
    library entry point does: whether an allocation succeeds, whether an
    entry point returns or raises [png_error] (a [longjmp] to the [setjmp]
    of [enc_png]), and which callbacks [png_write_png] issues.  Theorems are
    quantified over every such record, hence hold whatever the library does.

    The library only reads the rows it is given.  [enc_png_at] takes the
    two buffer pointers as the C function does, so that the caller may
    place the buffers anywhere; [enc_png] is the call in which they lie in
    two different blocks. *)

From Stdlib Require Import ZArith List Bool Lia.
From Stdlib Require Import Strings.Byte.
Import ListNotations.
Local Open Scope Z_scope.

(** ** 32-bit integers

    [g2int] is [int] and [png_uint_32] is [unsigned int]; both are 32 bits
    wide.  Values are carried as [Z] and every conversion is written out. *)
Module Int32.

Definition modulus : Z := 4294967296.
Definition half_modulus : Z := 2147483648.
Definition max_signed : Z := 2147483647.
Definition min_signed : Z := -2147483648.
Definition max_unsigned : Z := 4294967295.

(** Conversion to [unsigned int]. *)
Definition unsigned (z : Z) : Z := z mod modulus.

(** Conversion to [int] (two's complement). *)
Definition signed (z : Z) : Z :=
  let u := unsigned z in
  if u <? half_modulus then u else u - modulus.

(** [a * b] on two [int]s.  When the product does not fit, C leaves the
    multiplication undefined; the two's-complement value is given here
    so that the function is total, and the statements below either carry
    [in_signed_range] or do not depend on the value of the product. *)
Definition mul (a b : Z) : Z := signed (a * b).

(** [a / b] on two [int]s: C division truncates towards zero. *)
Definition div (a b : Z) : Z := Z.quot a b.

(** [i += u] with [i] an [int] and [u] an [unsigned int]: the sum is
    computed on [unsigned int] and converted back to [int]. *)
Definition add_assign_unsigned (i u : Z) : Z :=
  signed (unsigned (unsigned i + unsigned u)).

Definition in_signed_range (z : Z) : Prop := min_signed <= z <= max_signed.
Definition in_unsigned_range (z : Z) : Prop := 0 <= z <= max_unsigned.

End Int32.

(** ** Memory

    A block is a range of the caller's address space, a pointer is a block
    together with a byte offset, and pointer arithmetic moves the offset.
    Arrays in different blocks can never meet; arrays placed in one block
    lie at a fixed distance from each other, and a store that leaves one of
    them can land in the other.  No block has a recorded capacity: the
    source performs no bounds check anywhere. *)
Inductive block : Type :=
| DataBlock      (* where [enc_png] finds [char *data] *)
| PngBlock.      (* where [enc_png] finds [char *pngbuf] *)

Definition block_eqb (a b : block) : bool :=
  match a, b with
  | DataBlock, DataBlock | PngBlock, PngBlock => true
  | _, _ => false
  end.

Definition pointer : Type := block * Z.

Definition ptr_add (p : pointer) (n : Z) : pointer := (fst p, snd p + n).

Definition memory : Type := block -> Z -> byte.

(** [memcpy(dest, src, n)], the source array given by its contents. *)
Definition memcpy (m : memory) (dest : pointer) (src : Z -> byte) (n : Z)
  : memory :=
  fun b i =>
    if block_eqb b (fst dest) && (snd dest <=? i) && (i <? snd dest + n)
    then src (i - snd dest)
    else m b i.

(** ** The memory sink *)

(** [struct png_stream]. *)
Record png_stream : Type := mk_png_stream {
  stream_ptr : pointer;   (* location to write PNG stream *)
  stream_len : Z          (* number of bytes written *)
}.

(** [user_write_data(png_ptr, data, length)]; [png_get_io_ptr(png_ptr)] is
    the stream registered by [png_set_write_fn], passed here as [mem]. *)
Definition user_write_data (mem : png_stream) (m : memory)
    (data : Z -> byte) (length : Z) : png_stream * memory :=
  let ptr := stream_ptr mem in
  let offset := stream_len mem in
  let m' := memcpy m (ptr_add ptr offset) data length in
  (mk_png_stream ptr (Int32.add_assign_unsigned (stream_len mem) length), m').

(** [user_flush_data(png_ptr)]: empty body. *)
Definition user_flush_data (mem : png_stream) (m : memory)
  : png_stream * memory := (mem, m).

(** ** The PNG library as seen from [enc_png] *)

(** The colour types [enc_png] selects ([PNG_COLOR_TYPE_*] of png.h). *)
Inductive color_type : Type :=
| PNG_COLOR_TYPE_GRAY
| PNG_COLOR_TYPE_RGB
| PNG_COLOR_TYPE_RGB_ALPHA.

(** One invocation of a registered callback by the library. *)
Inductive io_call : Type :=
| WriteData (data : Z -> byte) (length : Z)   (* write_data_fn(png_ptr, data, length) *)
| FlushData.                                  (* output_flush_fn(png_ptr) *)

(** What the library does during one call of [enc_png]. *)
Record libpng : Type := mk_libpng {
  create_write_struct_ok : bool;   (* png_create_write_struct returns non-NULL *)
  create_info_struct_ok : bool;    (* png_create_info_struct returns non-NULL *)
  set_write_fn_ok : bool;          (* png_set_write_fn returns (false: png_error) *)
  set_IHDR_ok : bool;              (* png_set_IHDR returns (false: png_error) *)
  set_rows_ok : bool;              (* png_set_rows returns (false: png_error) *)
  write_png_calls : list io_call;  (* callbacks issued by png_write_png, in order *)
  write_png_ok : bool              (* png_write_png returns (false: png_error) *)
}.

(** The resources a call acquires. *)
Inductive resource : Type :=
| WriteStruct    (* png_ptr *)
| InfoStruct     (* info_ptr *)
| RowPointers.   (* row_pointers *)

(** What [enc_png] does to the outside world, in program order. *)
Inductive event : Type :=
| EvCreateWriteStruct (ok : bool)
| EvCreateInfoStruct (ok : bool)
| EvDestroyWriteStruct (with_info : bool)
    (* png_destroy_write_struct(&png_ptr, with_info ? &info_ptr : NULL) *)
| EvSetWriteFn
| EvSetIHDR (width height bit_depth : Z) (color : color_type)
| EvMalloc (count : Z)
| EvSetRows (rows : list pointer)
| EvWritePng
| EvWriteData (offset length : Z)   (* user_write_data entered *)
| EvFlushData                       (* user_flush_data entered *)
| EvFree.

(** The caller's memory, and the values [*width], [*height] and [*nbits]
    that [enc_png] reads from the three [g2int] cells: all reads (lines
    118-138) precede the first store (in [png_write_png]).  Where the
    caller keeps the cells is not fixed: they are some bytes of
    [contents]. *)
Record caller_state : Type := mk_caller_state {
  contents : memory;
  width : Z;
  height : Z;
  nbits : Z
}.

(** The state threaded through the body of [enc_png] once the sink exists. *)
Record state : Type := mk_state {
  caller : caller_state;
  write_io_ptr : png_stream;
  trace : list event
}.

(** ** Control: normal return or [longjmp]

    After [setjmp(png_jmpbuf(png_ptr))] every library call either returns
    or jumps back; the state reached so far survives the jump. *)
Inductive signal (A : Type) : Type :=
| Normal (a : A)
| Longjmp.
Arguments Normal {A} a.
Arguments Longjmp {A}.

Definition png (A : Type) : Type := state -> signal A * state.

Definition ret {A} (a : A) : png A := fun s => (Normal a, s).

Definition bind {A B} (c : png A) (k : A -> png B) : png B :=
  fun s =>
    match c s with
    | (Normal a, s') => k a s'
    | (Longjmp, s') => (Longjmp, s')
    end.

Declare Scope png_scope.
Delimit Scope png_scope with png.
Notation "x <- c ;; k" := (bind c (fun x => k))
  (at level 61, c at next level, right associativity) : png_scope.
Notation "c ;; k" := (bind c (fun _ => k))
  (at level 61, right associativity) : png_scope.

Definition log (e : event) : png unit :=
  fun s => (Normal tt, mk_state (caller s) (write_io_ptr s) (trace s ++ [e])).

Definition png_error : png unit := fun s => (Longjmp, s).

(** A library entry point that does nothing visible but may fail. *)
Definition library_call (e : event) (ok : bool) : png unit :=
  (log e ;; if ok then ret tt else png_error)%png.

Definition deref {A} (cell : caller_state -> A) : png A :=
  fun s => (Normal (cell (caller s)), s).

(** [write_io_ptr.stream_len], read by the enclosing function. *)
Definition read_stream_len : png Z :=
  fun s => (Normal (stream_len (write_io_ptr s)), s).

(** The library invoking one registered callback. *)
Definition run_io_call (c : io_call) : png unit :=
  fun s =>
    match c with
    | WriteData data length =>
        let '(io, m) :=
          user_write_data (write_io_ptr s) (contents (caller s)) data length in
        (Normal tt,
         mk_state
           (mk_caller_state m (width (caller s)) (height (caller s))
              (nbits (caller s)))
           io
           (trace s ++ [EvWriteData (stream_len (write_io_ptr s)) length]))
    | FlushData =>
        let '(io, m) :=
          user_flush_data (write_io_ptr s) (contents (caller s)) in
        (Normal tt,
         mk_state
           (mk_caller_state m (width (caller s)) (height (caller s))
              (nbits (caller s)))
           io
           (trace s ++ [EvFlushData]))
    end.

Fixpoint run_io_calls (cs : list io_call) : png unit :=
  match cs with
  | [] => ret tt
  | c :: cs' => (run_io_call c ;; run_io_calls cs')%png
  end.

(** [png_write_png(png_ptr, info_ptr, PNG_TRANSFORM_IDENTITY, NULL)]. *)
Definition png_write_png (L : libpng) : png unit :=
  (log EvWritePng ;;
   run_io_calls (write_png_calls L) ;;
   if write_png_ok L then ret tt else png_error)%png.

(** ** [enc_png] *)

(** The loop of lines 137-138,
    [for (j = 0; j < *height; j++) row_pointers[j] = data + j * width * bytes],
    entered at [j] with [n] iterations left. *)
Fixpoint row_loop (n : nat) (j : Z) (data : pointer) (width bytes : Z)
  : list pointer :=
  match n with
  | O => []
  | S n' =>
      ptr_add data (Int32.mul (Int32.mul j width) bytes)
      :: row_loop n' (j + 1) data width bytes
  end.

(** The [return] statement a call leaves through. *)
Inductive exit_point : Type :=
| ExitWriteStructNull   (* return -1 *)
| ExitInfoStructNull    (* return -2 *)
| ExitLongjmp           (* return -3 *)
| ExitDone.             (* return pnglen *)

Record outcome : Type := mk_outcome {
  returned : Z;
  exit : exit_point;
  after : caller_state;           (* the caller's memory at return *)
  sink : option png_stream;       (* write_io_ptr at return, if initialised *)
  events : list event
}.

(** Lines 118-129: the bit depth and colour type given to [png_set_IHDR]. *)
Definition depth_and_color (nb : Z) : Z * color_type :=
  let bit_depth := nb in
  let color_type := PNG_COLOR_TYPE_GRAY in
  if nb =? 24 then (8, PNG_COLOR_TYPE_RGB)
  else if nb =? 32 then (8, PNG_COLOR_TYPE_RGB_ALPHA)
  else (bit_depth, color_type).

(** Lines 113-148, run after a zero return of [setjmp] and the
    initialisation of [write_io_ptr] (lines 110-111).  The source does not
    test the result of [malloc]; the array is taken to be allocated. *)
Definition enc_png_body (L : libpng) (data : pointer) : png Z :=
  (library_call EvSetWriteFn (set_write_fn_ok L) ;;
   nb <- deref nbits ;;
   let dc := depth_and_color nb in
   w <- deref width ;;
   h <- deref height ;;
   library_call (EvSetIHDR w h (fst dc) (snd dc)) (set_IHDR_ok L) ;;
   nb <- deref nbits ;;
   let bytes := Int32.div nb 8 in
   h <- deref height ;;
   log (EvMalloc h) ;;
   w <- deref width ;;
   let row_pointers := row_loop (Z.to_nat h) 0 data w bytes in
   library_call (EvSetRows row_pointers) (set_rows_ok L) ;;
   png_write_png L ;;
   log (EvDestroyWriteStruct true) ;;
   log EvFree ;;
   pnglen <- read_stream_len ;;
   ret pnglen)%png.

(** The arguments [data] and [pngbuf]: the starts of the caller's arrays. *)
Definition data_ptr : pointer := (DataBlock, 0).
Definition pngbuf_ptr : pointer := (PngBlock, 0).

(** [enc_png(data, width, height, nbits, pngbuf)], with [c] the caller's
    memory at the call. *)
Definition enc_png_at (L : libpng) (c : caller_state) (data pngbuf : pointer)
  : outcome :=
  if negb (create_write_struct_ok L) then
    mk_outcome (-1) ExitWriteStructNull c None [EvCreateWriteStruct false]
  else if negb (create_info_struct_ok L) then
    mk_outcome (-2) ExitInfoStructNull c None
      [EvCreateWriteStruct true; EvCreateInfoStruct false;
       EvDestroyWriteStruct false]
  else
    let s0 :=
      mk_state c (mk_png_stream pngbuf 0)
        [EvCreateWriteStruct true; EvCreateInfoStruct true] in
    match enc_png_body L data s0 with
    | (Longjmp, s) =>
        mk_outcome (-3) ExitLongjmp (caller s) (Some (write_io_ptr s))
          (trace s ++ [EvDestroyWriteStruct true])
    | (Normal pnglen, s) =>
        mk_outcome pnglen ExitDone (caller s) (Some (write_io_ptr s)) (trace s)
    end.

(** The call in which the two buffers start two different blocks. *)
Definition enc_png (L : libpng) (c : caller_state) : outcome :=
  enc_png_at L c data_ptr pngbuf_ptr.

(** ** Observations on a call *)

(** The lengths passed to the write callback, in order. *)
Fixpoint written_lengths (cs : list io_call) : list Z :=
  match cs with
  | [] => []
  | WriteData _ length :: cs' => length :: written_lengths cs'
  | FlushData :: cs' => written_lengths cs'
  end.

Definition sum_lengths (ls : list Z) : Z := fold_right Z.add 0 ls.

(** The sink after the library has issued the callbacks [cs]. *)
Fixpoint sink_after (cs : list io_call) (io : png_stream) (m : memory)
  : png_stream * memory :=
  match cs with
  | [] => (io, m)
  | WriteData data length :: cs' =>
      let '(io', m') := user_write_data io m data length in
      sink_after cs' io' m'
  | FlushData :: cs' =>
      let '(io', m') := user_flush_data io m in
      sink_after cs' io' m'
  end.

(** The [(bit_depth, color_type)] pair handed to [png_set_IHDR], if any. *)
Fixpoint ihdr_registered (tr : list event) : option (Z * color_type) :=
  match tr with
  | [] => None
  | EvSetIHDR _ _ bit_depth color :: _ => Some (bit_depth, color)
  | _ :: tr' => ihdr_registered tr'
  end.

(** The row-pointer array handed to [png_set_rows], if any. *)
Fixpoint rows_handed (tr : list event) : option (list pointer) :=
  match tr with
  | [] => None
  | EvSetRows rows :: _ => Some rows
  | _ :: tr' => rows_handed tr'
  end.

(** *** Resources *)

Definition resource_eqb (a b : resource) : bool :=
  match a, b with
  | WriteStruct, WriteStruct | InfoStruct, InfoStruct
  | RowPointers, RowPointers => true
  | _, _ => false
  end.

Definition acquires (e : event) : list resource :=
  match e with
  | EvCreateWriteStruct true => [WriteStruct]
  | EvCreateInfoStruct true => [InfoStruct]
  | EvMalloc _ => [RowPointers]
  | _ => []
  end.

Definition releases (e : event) : list resource :=
  match e with
  | EvDestroyWriteStruct true => [InfoStruct; WriteStruct]
  | EvDestroyWriteStruct false => [WriteStruct]
  | EvFree => [RowPointers]
  | _ => []
  end.

Definition mem_resource (r : resource) (rs : list resource) : bool :=
  existsb (resource_eqb r) rs.

(** The resources still held after the events [tr], starting from [held]. *)
Fixpoint live (tr : list event) (held : list resource) : list resource :=
  match tr with
  | [] => held
  | e :: tr' =>
      live tr'
        (filter (fun r => negb (mem_resource r (releases e)))
           (held ++ acquires e))
  end.

(** Position in [tr] of the first event satisfying [p]. *)
Fixpoint first_index (p : event -> bool) (tr : list event) : option nat :=
  match tr with
  | [] => None
  | e :: tr' =>
      if p e then Some O
      else match first_index p tr' with
           | Some n => Some (S n)
           | None => None
           end
  end.

Definition acquire_time (r : resource) (tr : list event) : option nat :=
  first_index (fun e => mem_resource r (acquires e)) tr.

Definition release_time (r : resource) (tr : list event) : option nat :=
  first_index (fun e => mem_resource r (releases e)) tr.

Definition no_leak (tr : list event) : Prop := live tr [] = [].

(** [r2], acquired after [r1], is released no later than [r1]. *)
Definition released_before_or_with (r2 r1 : resource) (tr : list event)
  : bool :=
  match acquire_time r1 tr, acquire_time r2 tr with
  | Some a1, Some a2 =>
      if (a1 <? a2)%nat then
        match release_time r1 tr, release_time r2 tr with
        | Some t1, Some t2 => (t2 <=? t1)%nat
        | _, _ => true
        end
      else true
  | _, _ => true
  end.

Definition all_resources : list resource :=
  [WriteStruct; InfoStruct; RowPointers].

Definition reverse_order_teardown (tr : list event) : bool :=
  forallb
    (fun r1 => forallb (fun r2 => released_before_or_with r2 r1 tr)
                 all_resources)
    all_resources.

(** *** The sink and the trace of a call *)

(** [write_io_ptr] as lines 110-111 initialise it. *)
Definition fresh_sink : png_stream := mk_png_stream pngbuf_ptr 0.

(** The events logged while the library issues the callbacks [cs]. *)
Fixpoint callback_trace (cs : list io_call) (io : png_stream) : list event :=
  match cs with
  | [] => []
  | WriteData data length :: cs' =>
      EvWriteData (stream_len io) length
      :: callback_trace cs'
           (mk_png_stream (stream_ptr io)
              (Int32.add_assign_unsigned (stream_len io) length))
  | FlushData :: cs' => EvFlushData :: callback_trace cs' io
  end.

(** The lengths the write callback was entered with, in order. *)
Fixpoint event_lengths (tr : list event) : list Z :=
  match tr with
  | [] => []
  | EvWriteData _ length :: tr' => length :: event_lengths tr'
  | _ :: tr' => event_lengths tr'
  end.

(** The events of a call up to and including [png_set_IHDR]. *)
Definition events_to_IHDR (c : caller_state) : list event :=
  [EvCreateWriteStruct true; EvCreateInfoStruct true; EvSetWriteFn;
   EvSetIHDR (width c) (height c) (fst (depth_and_color (nbits c)))
     (snd (depth_and_color (nbits c)))].

(** The events of a call up to and including [png_set_rows]. *)
Definition events_to_rows (c : caller_state) : list event :=
  events_to_IHDR c ++
  [EvMalloc (height c);
   EvSetRows (row_loop (Z.to_nat (height c)) 0 data_ptr (width c)
                (Int32.div (nbits c) 8))].

(** The sink and the caller's memory once [png_write_png] has issued its
    callbacks. *)
Definition written (L : libpng) (c : caller_state) : png_stream * memory :=
  sink_after (write_png_calls L) fresh_sink (contents c).

Definition caller_after_write (L : libpng) (c : caller_state)
  : caller_state :=
  mk_caller_state (snd (written L c)) (width c) (height c) (nbits c).

(** The seven ways through [enc_png], each with the outcome it produces. *)
Variant enc_png_path (L : libpng) (c : caller_state) : outcome -> Prop :=
| PathWriteStructNull :
    create_write_struct_ok L = false ->
    enc_png_path L c
      (mk_outcome (-1) ExitWriteStructNull c None [EvCreateWriteStruct false])
| PathInfoStructNull :
    create_write_struct_ok L = true -> create_info_struct_ok L = false ->
    enc_png_path L c
      (mk_outcome (-2) ExitInfoStructNull c None
         [EvCreateWriteStruct true; EvCreateInfoStruct false;
          EvDestroyWriteStruct false])
| PathSetWriteFnFault :
    create_write_struct_ok L = true -> create_info_struct_ok L = true ->
    set_write_fn_ok L = false ->
    enc_png_path L c
      (mk_outcome (-3) ExitLongjmp c (Some fresh_sink)
         [EvCreateWriteStruct true; EvCreateInfoStruct true; EvSetWriteFn;
          EvDestroyWriteStruct true])
| PathSetIHDRFault :
    create_write_struct_ok L = true -> create_info_struct_ok L = true ->
    set_write_fn_ok L = true -> set_IHDR_ok L = false ->
    enc_png_path L c
      (mk_outcome (-3) ExitLongjmp c (Some fresh_sink)
         (events_to_IHDR c ++ [EvDestroyWriteStruct true]))
| PathSetRowsFault :
    create_write_struct_ok L = true -> create_info_struct_ok L = true ->
    set_write_fn_ok L = true -> set_IHDR_ok L = true ->
    set_rows_ok L = false ->
    enc_png_path L c
      (mk_outcome (-3) ExitLongjmp c (Some fresh_sink)
         (events_to_rows c ++ [EvDestroyWriteStruct true]))
| PathWritePngFault :
    create_write_struct_ok L = true -> create_info_struct_ok L = true ->
    set_write_fn_ok L = true -> set_IHDR_ok L = true ->
    set_rows_ok L = true -> write_png_ok L = false ->
    enc_png_path L c
      (mk_outcome (-3) ExitLongjmp (caller_after_write L c)
         (Some (fst (written L c)))
         (events_to_rows c ++ [EvWritePng]
          ++ callback_trace (write_png_calls L) fresh_sink
          ++ [EvDestroyWriteStruct true]))
| PathDone :
    create_write_struct_ok L = true -> create_info_struct_ok L = true ->
    set_write_fn_ok L = true -> set_IHDR_ok L = true ->
    set_rows_ok L = true -> write_png_ok L = true ->
    enc_png_path L c
      (mk_outcome (stream_len (fst (written L c))) ExitDone
         (caller_after_write L c) (Some (fst (written L c)))
         (events_to_rows c ++ [EvWritePng]
          ++ callback_trace (write_png_calls L) fresh_sink
          ++ [EvDestroyWriteStruct true; EvFree])).

(** ** Sample inputs *)

(** The array holding the bytes [l] from offset 0 on. *)
Definition pixels_of (l : list byte) : Z -> byte :=
  fun i => if i <? 0 then x00 else nth (Z.to_nat i) l x00.

Definition blank : memory := fun _ _ => x00.

(** A caller whose pixel buffer holds [l] and whose output buffer is
    zeroed. *)
Definition image (l : list byte) (w h nb : Z) : caller_state :=
  mk_caller_state
    (fun b i => match b with DataBlock => pixels_of l i | PngBlock => x00 end)
    w h nb.

Definition gray_2x2 : caller_state := image [x0a; x14; x1e; x28] 2 2 8.

Definition gray16_1x1 : caller_state := image [x12; x34] 1 1 16.


Definition rgba_1x1 : caller_state := image [xff; x00; x00; x80] 1 1 32.


(** A library that succeeds throughout and issues the callbacks [cs]. *)
Definition library_writing (cs : list io_call) : libpng :=
  mk_libpng true true true true true cs true.

(** A library in which [png_write_png] fails after the callbacks [cs]. *)
Definition library_failing_write (cs : list io_call) : libpng :=
  mk_libpng true true true true true cs false.

(** A library whose write struct cannot be allocated. *)
Definition library_without_write_struct : libpng :=
  mk_libpng false true true true true [] true.

(** A library whose info struct cannot be allocated. *)
Definition library_without_info_struct : libpng :=
  mk_libpng true false true true true [] true.

Definition png_signature : list byte :=
  [x89; x50; x4e; x47; x0d; x0a; x1a; x0a].

(** An eight-byte chunk, a flush, a two-byte chunk. *)
Definition three_calls : list io_call :=
  [WriteData (pixels_of png_signature) 8; FlushData;
   WriteData (pixels_of [x49; x48]) 2].

(** ** The specification's sentences, as worded

    Where the code departs from a sentence, the sentence is kept here as a
    proposition so that it can be refuted next to the statement that
    holds. *)

(** One invocation of the write callback on the sink [io], followed by the
    callbacks [post]: the chunk lands at the current length, the length
    advances by the chunk's length, it never decreases afterwards, and no
    byte below it is written again. *)
Definition append_only (io : png_stream) (m : memory) (data : Z -> byte)
    (length : Z) (post : list io_call) : Prop :=
  let io1 := fst (user_write_data io m data length) in
  let m1 := snd (user_write_data io m data length) in
  let io2 := fst (sink_after post io1 m1) in
  let m2 := snd (sink_after post io1 m1) in
  let buf := fst (stream_ptr io) in
  let base := snd (stream_ptr io) in
  (forall i, 0 <= i < length -> m1 buf (base + stream_len io + i) = data i) /\
  stream_len io1 = stream_len io + length /\
  stream_len io <= stream_len io1 <= stream_len io2 /\
  (forall i, 0 <= i < stream_len io1 -> m2 buf (base + i) = m1 buf (base + i)).

(** C3 as worded: [append_only] at every invocation, for any sequence of
    callbacks on the sink [enc_png] sets up. *)
Definition sink_append_only_claim : Prop :=
  forall (pre : list io_call) (data : Z -> byte) (length : Z)
         (post : list io_call) (m : memory),
    Forall Int32.in_unsigned_range
      (written_lengths (pre ++ WriteData data length :: post)) ->
    append_only (fst (sink_after pre fresh_sink m))
      (snd (sink_after pre fresh_sink m)) data length post.

(** C1 as worded: a call that completes without an error returns the sum
    of the lengths passed to the write callback. *)
Definition returns_bytes_written_claim : Prop :=
  forall (L : libpng) (c : caller_state),
    Forall Int32.in_unsigned_range (event_lengths (events (enc_png L c))) ->
    exit (enc_png L c) = ExitDone ->
    returned (enc_png L c) =
      sum_lengths (event_lengths (events (enc_png L c))).


(** C5 as worded: nothing acquired is still held at return, and a resource
    acquired later is released no later than one acquired earlier. *)
Definition teardown_claim : Prop :=
  forall (L : libpng) (c : caller_state),
    no_leak (events (enc_png L c)) /\
    reverse_order_teardown (events (enc_png L c)) = true.


(** ** Further observations *)

(** Byte [i] of the stream formed by the chunks of [cs] laid end to end. *)
Fixpoint stream_byte (cs : list io_call) (i : Z) : byte :=
  match cs with
  | [] => x00
  | WriteData data length :: cs' =>
      if i <? length then data i else stream_byte cs' (i - length)
  | FlushData :: cs' => stream_byte cs' i
  end.

(** Every library call before [png_write_png] succeeds. *)
Definition reaches_write_png (L : libpng) : bool :=
  create_write_struct_ok L && create_info_struct_ok L && set_write_fn_ok L
  && set_IHDR_ok L && set_rows_ok L.

(** A callback that can change the sink: a write of at least one byte. *)
Definition effective (c : io_call) : bool :=
  match c with
  | WriteData _ length => negb (length =? 0)
  | FlushData => false
  end.

(** The same library behaviour without the flushes and the empty writes. *)
Definition without_idle_calls (L : libpng) : libpng :=
  mk_libpng (create_write_struct_ok L) (create_info_struct_ok L)
    (set_write_fn_ok L) (set_IHDR_ok L) (set_rows_ok L)
    (filter effective (write_png_calls L)) (write_png_ok L).

(** The structs an event is given: the [png_ptr] and [info_ptr] arguments
    of the call ([png_get_io_ptr(png_ptr)] for a callback). *)
Definition struct_arguments (e : event) : list resource :=
  match e with
  | EvCreateInfoStruct _ => [WriteStruct]
  | EvDestroyWriteStruct true => [WriteStruct; InfoStruct]
  | EvDestroyWriteStruct false => [WriteStruct]
  | EvSetWriteFn => [WriteStruct]
  | EvSetIHDR _ _ _ _ => [WriteStruct; InfoStruct]
  | EvSetRows _ => [WriteStruct; InfoStruct]
  | EvWritePng => [WriteStruct; InfoStruct]
  | EvWriteData _ _ => [WriteStruct]
  | EvFlushData => [WriteStruct]
  | _ => []
  end.

Definition is_struct (r : resource) : bool :=
  match r with
  | WriteStruct | InfoStruct => true
  | RowPointers => false
  end.

(** Starting with [held], every event of [tr] is given structs that are
    held at that point, and no struct is created while it is held. *)
Fixpoint structs_safe (tr : list event) (held : list resource) : bool :=
  match tr with
  | [] => true
  | e :: tr' =>
      forallb (fun r => mem_resource r held) (struct_arguments e)
      && forallb (fun r => negb (mem_resource r held))
           (filter is_struct (acquires e))
      && structs_safe tr'
           (filter (fun r => negb (mem_resource r (releases e)))
              (held ++ acquires e))
  end.

(** Two chunks of 2^31 bytes each. *)
Definition two_huge_calls : list io_call :=
  [WriteData (fun _ => x00) 2147483648; WriteData (fun _ => x00) 2147483648].

(** An image of height 0, and a 2x2 image with 4 bits per pixel. *)
Definition gray_2x0 : caller_state := image [] 2 0 8.
Definition gray4_2x2 : caller_state := image [x12; x34] 2 2 4.

(** The [n] bytes at [p] lie clear of the first [total] bytes at
    [pngbuf]. *)
Definition clear_of_output (p : pointer) (n : Z) (pngbuf : pointer)
    (total : Z) : Prop :=
  fst p <> fst pngbuf \/ snd p + n <= snd pngbuf
  \/ snd pngbuf + total <= snd p.

(** C10 as worded: whatever the call, an input of the caller (the pixel
    buffer, a [g2int] cell: any [n] bytes at a pointer [p]) that lies clear
    of the part of the output buffer receiving the stream holds after the
    call what it held before. *)
Definition inputs_unchanged_claim : Prop :=
  forall (L : libpng) (c : caller_state) (data pngbuf p : pointer) (n : Z),
    Forall Int32.in_unsigned_range (written_lengths (write_png_calls L)) ->
    clear_of_output p n pngbuf
      (sum_lengths (written_lengths (write_png_calls L))) ->
    forall i, 0 <= i < n ->
      contents (after (enc_png_at L c data pngbuf)) (fst p) (snd p + i)
      = contents c (fst p) (snd p + i).

(** The pixel buffer at the start of a block and the output buffer 2^31
    bytes further on in the same block. *)
Definition pngbuf_after_data : pointer := (DataBlock, 2147483648).

(** A chunk of 2^31 bytes followed by a chunk of one byte. *)
Definition wrapping_calls : list io_call :=
  [WriteData (fun _ => x00) 2147483648; WriteData (fun _ => xff) 1].

(** * Properties *)

(** ** 32-bit arithmetic *)
Module Int32Facts.
Import Int32.

Lemma modulus_pos : 0 < modulus.
Proof. reflexivity. Qed.

Lemma unsigned_range z : 0 <= unsigned z < modulus.
Proof. unfold unsigned. apply Z.mod_pos_bound, modulus_pos. Qed.

Lemma signed_range z : in_signed_range (signed z).
Proof.
  unfold in_signed_range, signed, min_signed, max_signed.
  pose proof (unsigned_range z) as H.
  cbv zeta. destruct (Z.ltb_spec (unsigned z) half_modulus);
    unfold half_modulus, modulus in *; lia.
Qed.

Lemma unsigned_signed z : unsigned (signed z) = unsigned z.
Proof.
  unfold signed. cbv zeta.
  destruct (Z.ltb_spec (unsigned z) half_modulus).
  - unfold unsigned. apply Z.mod_mod. discriminate.
  - unfold unsigned.
    replace (z mod modulus - modulus) with (z mod modulus + (-1) * modulus)
      by ring.
    rewrite Z.mod_add by discriminate. apply Z.mod_mod. discriminate.
Qed.

Lemma signed_congr a b : unsigned a = unsigned b -> signed a = signed b.
Proof. unfold signed. intros ->. reflexivity. Qed.

Lemma signed_eq z : in_signed_range z -> signed z = z.
Proof.
  unfold in_signed_range, min_signed, max_signed. intros H.
  unfold signed, unsigned. cbv zeta.
  destruct (Z_lt_le_dec z 0) as [Hneg | Hpos].
  - replace (z mod modulus) with ((z + 1 * modulus) mod modulus)
      by (apply Z.mod_add; discriminate).
    rewrite Z.mod_small by (unfold modulus; lia).
    destruct (Z.ltb_spec (z + 1 * modulus) half_modulus);
      unfold half_modulus, modulus in *; lia.
  - rewrite Z.mod_small by (unfold modulus; lia).
    destruct (Z.ltb_spec z half_modulus);
      unfold half_modulus, modulus in *; lia.
Qed.

Lemma add_assign_unsigned_signed i u :
  add_assign_unsigned i u = signed (i + u).
Proof.
  unfold add_assign_unsigned. apply signed_congr.
  unfold unsigned. rewrite Z.mod_mod by discriminate.
  symmetry. apply Z.add_mod. discriminate.
Qed.

Lemma signed_add_signed a b : signed (signed a + b) = signed (a + b).
Proof.
  apply signed_congr. unfold unsigned.
  rewrite (Z.add_mod (signed a) b), (Z.add_mod a b) by discriminate.
  fold (unsigned (signed a)). rewrite unsigned_signed. reflexivity.
Qed.


End Int32Facts.

(** ** The memory sink *)

Lemma block_eqb_eq a b : block_eqb a b = true <-> a = b.
Proof. destruct a, b; simpl; split; congruence. Qed.

Lemma memcpy_inside m dest src n i :
  snd dest <= i < snd dest + n ->
  memcpy m dest src n (fst dest) i = src (i - snd dest).
Proof.
  intros [Hlo Hhi]. unfold memcpy.
  replace (block_eqb (fst dest) (fst dest)) with true
    by (symmetry; apply block_eqb_eq; reflexivity).
  apply Z.leb_le in Hlo. apply Z.ltb_lt in Hhi.
  rewrite Hlo, Hhi. reflexivity.
Qed.

Lemma memcpy_outside m dest src n b i :
  b <> fst dest \/ i < snd dest \/ snd dest + n <= i ->
  memcpy m dest src n b i = m b i.
Proof.
  intros H. unfold memcpy.
  destruct (block_eqb b (fst dest)) eqn:Hb; simpl; [| reflexivity].
  apply block_eqb_eq in Hb.
  destruct (Z.leb_spec (snd dest) i); simpl; [| reflexivity].
  destruct (Z.ltb_spec i (snd dest + n)); [| reflexivity].
  exfalso. destruct H as [H | [H | H]]; [congruence | lia | lia].
Qed.

Lemma sum_lengths_app a b :
  sum_lengths (a ++ b) = sum_lengths a + sum_lengths b.
Proof.
  unfold sum_lengths. induction a as [| x a IH]; simpl; [reflexivity |].
  rewrite IH. ring.
Qed.

Lemma written_lengths_app a b :
  written_lengths (a ++ b) = written_lengths a ++ written_lengths b.
Proof.
  induction a as [| [d l |] a IH]; simpl; [reflexivity | | exact IH].
  now rewrite IH.
Qed.

Lemma sum_lengths_nonneg ls :
  Forall Int32.in_unsigned_range ls -> 0 <= sum_lengths ls.
Proof.
  unfold sum_lengths, Int32.in_unsigned_range.
  induction 1 as [| x ls Hx _ IH]; simpl; lia.
Qed.

Lemma sink_after_app a b io m :
  sink_after (a ++ b) io m =
  sink_after b (fst (sink_after a io m)) (snd (sink_after a io m)).
Proof.
  revert io m. induction a as [| [d l |] a IH]; intros io m; simpl.
  - reflexivity.
  - apply IH.
  - apply IH.
Qed.

Lemma sink_after_write d l cs io m :
  sink_after (WriteData d l :: cs) io m =
  sink_after cs
    (mk_png_stream (stream_ptr io)
       (Int32.add_assign_unsigned (stream_len io) l))
    (memcpy m (ptr_add (stream_ptr io) (stream_len io)) d l).
Proof. reflexivity. Qed.

Lemma sum_lengths_cons l ls : sum_lengths (l :: ls) = l + sum_lengths ls.
Proof. reflexivity. Qed.

(** Whatever the lengths, the stream keeps its pointer and its length is
    the 32-bit signed reduction of the running total. *)
Lemma sink_after_wraps cs : forall io m,
  Int32.in_signed_range (stream_len io) ->
  stream_ptr (fst (sink_after cs io m)) = stream_ptr io /\
  stream_len (fst (sink_after cs io m)) =
    Int32.signed (stream_len io + sum_lengths (written_lengths cs)).
Proof.
  induction cs as [| [d l |] cs IH]; intros io m Hio.
  - simpl. split; [reflexivity |].
    rewrite Z.add_0_r. symmetry. now apply Int32Facts.signed_eq.
  - rewrite sink_after_write.
    cbn [written_lengths]. rewrite sum_lengths_cons.
    match goal with
    | |- context [sink_after cs ?io' ?m'] =>
        destruct (IH io' m') as [Hp Hl]
    end.
    { cbn [stream_len]. rewrite Int32Facts.add_assign_unsigned_signed.
      apply Int32Facts.signed_range. }
    cbn [stream_ptr stream_len] in Hp, Hl.
    split; [exact Hp |]. rewrite Hl.
    rewrite Int32Facts.add_assign_unsigned_signed.
    rewrite Int32Facts.signed_add_signed. f_equal. ring.
  - apply IH. exact Hio.
Qed.

(** While the running total fits an [int], the stream only grows and
    what lies below its current length is left alone. *)
Lemma sink_after_grows cs : forall io m,
  0 <= stream_len io ->
  Forall Int32.in_unsigned_range (written_lengths cs) ->
  stream_len io + sum_lengths (written_lengths cs) <= Int32.max_signed ->
  stream_len (fst (sink_after cs io m)) =
    stream_len io + sum_lengths (written_lengths cs) /\
  (forall i, i < stream_len io ->
     snd (sink_after cs io m) (fst (stream_ptr io))
         (snd (stream_ptr io) + i) =
     m (fst (stream_ptr io)) (snd (stream_ptr io) + i)).
Proof.
  induction cs as [| [d l |] cs IH]; intros io m Hio Hls Hsum.
  - simpl. split; [unfold sum_lengths; simpl; lia | reflexivity].
  - rewrite sink_after_write.
    cbn [written_lengths] in *. rewrite sum_lengths_cons in *.
    inversion Hls as [| x xs Hl Hls' ]; subst.
    pose proof (sum_lengths_nonneg _ Hls') as Hnn.
    unfold Int32.in_unsigned_range in Hl.
    assert (Hadv : Int32.add_assign_unsigned (stream_len io) l
                   = stream_len io + l).
    { rewrite Int32Facts.add_assign_unsigned_signed.
      apply Int32Facts.signed_eq.
      unfold Int32.in_signed_range, Int32.min_signed, Int32.max_signed in *.
      lia. }
    rewrite Hadv.
    match goal with
    | |- context [sink_after cs ?io' ?m'] =>
        destruct (IH io' m') as [Hlen Hkeep]
    end.
    { cbn [stream_len]. lia. }
    { exact Hls'. }
    { cbn [stream_len]. lia. }
    cbn [stream_ptr stream_len] in Hlen, Hkeep.
    split; [rewrite Hlen; ring |].
    intros i Hi. rewrite Hkeep by lia.
    apply memcpy_outside. right; left. simpl. lia.
  - apply IH; assumption.
Qed.

(** Only the block behind the stream pointer is ever written. *)
Lemma sink_after_other_block cs : forall io m b i,
  b <> fst (stream_ptr io) ->
  snd (sink_after cs io m) b i = m b i.
Proof.
  induction cs as [| [d l |] cs IH]; intros io m b i Hb.
  - reflexivity.
  - rewrite sink_after_write, IH by exact Hb.
    apply memcpy_outside. left. exact Hb.
  - apply IH. exact Hb.
Qed.


(** Within the range of [int], the callbacks [cs] write nowhere but in the
    window that starts at the current length and is as long as their
    chunks together. *)
Lemma sink_after_frame cs : forall io m b i,
  0 <= stream_len io ->
  Forall Int32.in_unsigned_range (written_lengths cs) ->
  stream_len io + sum_lengths (written_lengths cs) <= Int32.max_signed ->
  b <> fst (stream_ptr io)
  \/ i < snd (stream_ptr io) + stream_len io
  \/ snd (stream_ptr io) + stream_len io + sum_lengths (written_lengths cs)
     <= i ->
  snd (sink_after cs io m) b i = m b i.
Proof.
  induction cs as [| [d l |] cs IH]; intros io m b i Hio Hls Hsum Hout.
  - reflexivity.
  - rewrite sink_after_write.
    cbn [written_lengths] in *. rewrite sum_lengths_cons in *.
    inversion Hls as [| x xs Hl Hls']; subst.
    pose proof (sum_lengths_nonneg _ Hls') as Hnn.
    unfold Int32.in_unsigned_range in Hl.
    assert (Hadv : Int32.add_assign_unsigned (stream_len io) l
                   = stream_len io + l).
    { rewrite Int32Facts.add_assign_unsigned_signed.
      apply Int32Facts.signed_eq.
      unfold Int32.in_signed_range, Int32.min_signed, Int32.max_signed in *.
      lia. }
    rewrite Hadv, IH.
    + apply memcpy_outside.
      destruct Hout as [Hb | Hi]; [left; exact Hb | right; simpl; lia].
    + cbn [stream_len]. lia.
    + exact Hls'.
    + cbn [stream_len]. lia.
    + cbn [stream_ptr stream_len].
      destruct Hout as [Hb | Hi]; [left; exact Hb | right; lia].
  - apply IH; assumption.
Qed.

(** ** Claims on the sink *)

(** C3 (amended): in any sequence of write calls whose chunk lengths sum
    to at most 2^31 - 1 (the largest value of the [g2int] field
    [stream_len]), every invocation of the write callback copies its chunk
    into the output buffer starting exactly at the current [stream_len]
    offset and then advances [stream_len] by exactly the chunk's length,
    [stream_len] never decreases, and bytes written by earlier calls are
    never overwritten. *)
Theorem sink_append_only_within_int
    (pre : list io_call) (data : Z -> byte) (length : Z)
    (post : list io_call) (m : memory) :
  Forall Int32.in_unsigned_range
    (written_lengths (pre ++ WriteData data length :: post)) ->
  sum_lengths (written_lengths (pre ++ WriteData data length :: post))
    <= Int32.max_signed ->
  append_only (fst (sink_after pre fresh_sink m))
    (snd (sink_after pre fresh_sink m)) data length post.
Proof.
  rewrite written_lengths_app. cbn [written_lengths].
  rewrite sum_lengths_app, sum_lengths_cons.
  intros Hall Hsum.
  apply Forall_app in Hall. destruct Hall as [Hpre Hrest].
  inversion Hrest as [| x xs Hlen Hpost]; subst.
  pose proof (sum_lengths_nonneg _ Hpre) as Hpre0.
  pose proof (sum_lengths_nonneg _ Hpost) as Hpost0.
  pose proof Hlen as Hlen'. unfold Int32.in_unsigned_range in Hlen'.
  destruct (sink_after_grows pre fresh_sink m) as [Hio _].
  { simpl. lia. }
  { exact Hpre. }
  { simpl. lia. }
  destruct (sink_after_wraps pre fresh_sink m) as [Hptr _].
  { simpl. unfold Int32.in_signed_range, Int32.min_signed, Int32.max_signed.
    lia. }
  simpl in Hio.
  set (io := fst (sink_after pre fresh_sink m)) in *.
  set (m0 := snd (sink_after pre fresh_sink m)) in *.
  assert (Hadv : Int32.add_assign_unsigned (stream_len io) length
                 = stream_len io + length).
  { rewrite Int32Facts.add_assign_unsigned_signed.
    apply Int32Facts.signed_eq.
    unfold Int32.in_signed_range, Int32.min_signed, Int32.max_signed in *.
    lia. }
  unfold append_only. cbv zeta. unfold user_write_data.
  cbn [fst snd stream_len stream_ptr]. rewrite Hadv.
  match goal with
  | |- context [sink_after post ?io' ?m'] =>
      destruct (sink_after_grows post io' m') as [Hlen2 Hkeep]
  end.
  { cbn [stream_len]. lia. }
  { exact Hpost. }
  { cbn [stream_len]. lia. }
  cbn [stream_len stream_ptr] in Hlen2, Hkeep.
  repeat split.
  - intros i Hi.
    replace (snd (stream_ptr io) + stream_len io + i)
      with (snd (ptr_add (stream_ptr io) (stream_len io)) + i)
      by (simpl; ring).
    change (fst (stream_ptr io))
      with (fst (ptr_add (stream_ptr io) (stream_len io))).
    rewrite memcpy_inside by lia. f_equal. ring.
  - lia.
  - rewrite Hlen2. lia.
  - intros i Hi. apply Hkeep. lia.
Qed.

(** The amended claim at a three-chunk stream: signature, a flush, two
    further bytes. *)
Lemma sink_append_only_within_int_witness :
  append_only
    (fst (sink_after [WriteData (pixels_of png_signature) 8; FlushData]
            fresh_sink blank))
    (snd (sink_after [WriteData (pixels_of png_signature) 8; FlushData]
            fresh_sink blank))
    (pixels_of [x49; x48]) 2 [WriteData (pixels_of [x44; x52]) 2].
Proof.
  apply (sink_append_only_within_int
           [WriteData (pixels_of png_signature) 8; FlushData]
           (pixels_of [x49; x48]) 2 [WriteData (pixels_of [x44; x52]) 2]
           blank).
  - simpl. repeat constructor; vm_compute; discriminate.
  - vm_compute. discriminate.
Defined.

(** C3 as stated fails once the running total leaves the range of [int]:
    after a 1-byte chunk, a chunk of 4294967295 bytes brings [stream_len]
    back to 0 instead of 4294967296. *)
Lemma sink_append_only_counterexample : ~ sink_append_only_claim.
Proof.
  intros H.
  specialize (H [WriteData (fun _ => x41) 1] (fun _ => x42) 4294967295
                [WriteData (fun _ => x43) 1] blank).
  destruct H as (_ & Hadv & _).
  - simpl. repeat constructor; vm_compute; discriminate.
  - vm_compute in Hadv. discriminate.
Qed.

(** The same run, observed: the length decreases and the first byte of the
    buffer is written twice. *)
Example sink_wraps_and_overwrites :
  let calls :=
    [WriteData (fun _ => x41) 1; WriteData (fun _ => x42) 4294967295;
     WriteData (fun _ => x43) 1] in
  stream_len (fst (sink_after (firstn 1 calls) fresh_sink blank)) = 1 /\
  stream_len (fst (sink_after (firstn 2 calls) fresh_sink blank)) = 0 /\
  snd (sink_after (firstn 1 calls) fresh_sink blank) PngBlock 0 = x41 /\
  snd (sink_after calls fresh_sink blank) PngBlock 0 = x43.
Proof. vm_compute. repeat split. Qed.

(** ** The call as a whole *)

Lemma run_io_calls_eq cs : forall s,
  run_io_calls cs s =
  (Normal tt,
   mk_state
     (mk_caller_state
        (snd (sink_after cs (write_io_ptr s) (contents (caller s))))
        (width (caller s)) (height (caller s)) (nbits (caller s)))
     (fst (sink_after cs (write_io_ptr s) (contents (caller s))))
     (trace s ++ callback_trace cs (write_io_ptr s))).
Proof.
  induction cs as [| [d l |] cs IH]; intros [[m w h nb] io tr].
  - simpl. unfold ret. now rewrite app_nil_r.
  - cbn [run_io_calls]. unfold bind.
    cbn [run_io_call user_write_data caller write_io_ptr contents width
         height nbits trace].
    rewrite IH. cbn [caller write_io_ptr contents width height nbits trace].
    rewrite sink_after_write, <- app_assoc. reflexivity.
  - cbn [run_io_calls]. unfold bind.
    cbn [run_io_call user_flush_data caller write_io_ptr contents width
         height nbits trace].
    rewrite IH. cbn [caller write_io_ptr contents width height nbits trace].
    rewrite <- app_assoc. reflexivity.
Qed.

Section Paths.
Variables (L : libpng) (c : caller_state).

Lemma enc_png_write_struct_null :
  create_write_struct_ok L = false ->
  enc_png L c =
  mk_outcome (-1) ExitWriteStructNull c None [EvCreateWriteStruct false].
Proof. intros H. unfold enc_png, enc_png_at. now rewrite H. Qed.

Lemma enc_png_info_struct_null :
  create_write_struct_ok L = true -> create_info_struct_ok L = false ->
  enc_png L c =
  mk_outcome (-2) ExitInfoStructNull c None
    [EvCreateWriteStruct true; EvCreateInfoStruct false;
     EvDestroyWriteStruct false].
Proof. intros H1 H2. unfold enc_png, enc_png_at. now rewrite H1, H2. Qed.

Hypothesis Hwrite : create_write_struct_ok L = true.
Hypothesis Hinfo : create_info_struct_ok L = true.

Ltac enter_body :=
  unfold enc_png, enc_png_at; rewrite Hwrite, Hinfo; cbn [negb];
  unfold enc_png_body, library_call, png_write_png, bind, log, ret, deref,
    read_stream_len, png_error.

Lemma enc_png_set_write_fn_fault :
  set_write_fn_ok L = false ->
  enc_png L c =
  mk_outcome (-3) ExitLongjmp c (Some fresh_sink)
    [EvCreateWriteStruct true; EvCreateInfoStruct true; EvSetWriteFn;
     EvDestroyWriteStruct true].
Proof. intros H. enter_body. rewrite H. reflexivity. Qed.

Hypothesis Hfn : set_write_fn_ok L = true.

Lemma enc_png_set_IHDR_fault :
  set_IHDR_ok L = false ->
  enc_png L c =
  mk_outcome (-3) ExitLongjmp c (Some fresh_sink)
    (events_to_IHDR c ++ [EvDestroyWriteStruct true]).
Proof. intros H. enter_body. rewrite Hfn, H. reflexivity. Qed.

Hypothesis Hihdr : set_IHDR_ok L = true.

Lemma enc_png_set_rows_fault :
  set_rows_ok L = false ->
  enc_png L c =
  mk_outcome (-3) ExitLongjmp c (Some fresh_sink)
    (events_to_rows c ++ [EvDestroyWriteStruct true]).
Proof. intros H. enter_body. rewrite Hfn, Hihdr, H. reflexivity. Qed.

Hypothesis Hrows : set_rows_ok L = true.

Lemma enc_png_write_png_fault :
  write_png_ok L = false ->
  enc_png L c =
  mk_outcome (-3) ExitLongjmp (caller_after_write L c)
    (Some (fst (written L c)))
    (events_to_rows c ++ [EvWritePng]
     ++ callback_trace (write_png_calls L) fresh_sink
     ++ [EvDestroyWriteStruct true]).
Proof.
  intros H. enter_body. rewrite Hfn, Hihdr, Hrows.
  cbn -[row_loop depth_and_color]. rewrite run_io_calls_eq, H.
  cbn -[row_loop depth_and_color sink_after callback_trace].
  unfold caller_after_write, written, fresh_sink, events_to_rows.
  repeat rewrite <- app_assoc. reflexivity.
Qed.

Lemma enc_png_done :
  write_png_ok L = true ->
  enc_png L c =
  mk_outcome (stream_len (fst (written L c))) ExitDone
    (caller_after_write L c) (Some (fst (written L c)))
    (events_to_rows c ++ [EvWritePng]
     ++ callback_trace (write_png_calls L) fresh_sink
     ++ [EvDestroyWriteStruct true; EvFree]).
Proof.
  intros H. enter_body. rewrite Hfn, Hihdr, Hrows.
  cbn -[row_loop depth_and_color]. rewrite run_io_calls_eq, H.
  cbn -[row_loop depth_and_color sink_after callback_trace].
  unfold caller_after_write, written, fresh_sink, events_to_rows.
  repeat rewrite <- app_assoc. reflexivity.
Qed.

End Paths.

Lemma enc_png_follows_a_path L c : enc_png_path L c (enc_png L c).
Proof.
  destruct (create_write_struct_ok L) eqn:H1.
  2: { rewrite enc_png_write_struct_null by exact H1. now constructor. }
  destruct (create_info_struct_ok L) eqn:H2.
  2: { rewrite enc_png_info_struct_null by assumption. now constructor. }
  destruct (set_write_fn_ok L) eqn:H3.
  2: { rewrite enc_png_set_write_fn_fault by assumption. now constructor. }
  destruct (set_IHDR_ok L) eqn:H4.
  2: { rewrite enc_png_set_IHDR_fault by assumption. now constructor. }
  destruct (set_rows_ok L) eqn:H5.
  2: { rewrite enc_png_set_rows_fault by assumption. now constructor. }
  destruct (write_png_ok L) eqn:H6.
  - rewrite enc_png_done by assumption. now constructor.
  - rewrite enc_png_write_png_fault by assumption. now constructor.
Qed.

(** Case analysis on the path of the call [enc_png L c] in the goal. *)
Ltac on_each_path L c :=
  let P := fresh "P" in
  pose proof (enc_png_follows_a_path L c) as P;
  destruct P; cbn [returned exit after sink events].

Lemma event_lengths_app a b :
  event_lengths (a ++ b) = event_lengths a ++ event_lengths b.
Proof.
  induction a as [| e a IH]; [reflexivity |].
  destruct e; simpl; rewrite ?IH; reflexivity.
Qed.

Lemma event_lengths_callback_trace cs : forall io,
  event_lengths (callback_trace cs io) = written_lengths cs.
Proof.
  induction cs as [| [d l |] cs IH]; intros io; simpl; rewrite ?IH;
    reflexivity.
Qed.

Lemma event_lengths_to_rows c : event_lengths (events_to_rows c) = [].
Proof. reflexivity. Qed.

(** The write callback is entered exactly as often, and with the lengths,
    that the library chooses during [png_write_png]; on a path that does
    not reach [png_write_png] it is never entered. *)
Lemma event_lengths_enc_png L c :
  event_lengths (events (enc_png L c)) = [] \/
  event_lengths (events (enc_png L c)) = written_lengths (write_png_calls L).
Proof.
  on_each_path L c; try (left; reflexivity); right;
    rewrite !event_lengths_app, event_lengths_callback_trace,
      event_lengths_to_rows; simpl; now rewrite app_nil_r.
Qed.

Lemma event_lengths_done L c :
  exit (enc_png L c) = ExitDone ->
  event_lengths (events (enc_png L c)) = written_lengths (write_png_calls L).
Proof.
  on_each_path L c; try discriminate. intros _.
  rewrite !event_lengths_app, event_lengths_callback_trace,
    event_lengths_to_rows. simpl. now rewrite app_nil_r.
Qed.

Lemma returned_done L c :
  exit (enc_png L c) = ExitDone ->
  sink (enc_png L c) = Some (mk_png_stream pngbuf_ptr (returned (enc_png L c)))
  /\ returned (enc_png L c) =
     Int32.signed (sum_lengths (written_lengths (write_png_calls L))).
Proof.
  on_each_path L c; try discriminate. intros _.
  destruct (sink_after_wraps (write_png_calls L) fresh_sink (contents c))
    as [Hp Hl].
  { simpl. unfold Int32.in_signed_range, Int32.min_signed, Int32.max_signed.
    lia. }
  unfold written. split.
  - destruct (fst (sink_after (write_png_calls L) fresh_sink (contents c)))
      as [p l]. simpl in *. now subst.
  - exact Hl.
Qed.

(** A completed call whose total fits an [int] returns that total. *)
Lemma returned_done_exact L c :
  exit (enc_png L c) = ExitDone ->
  Forall Int32.in_unsigned_range (event_lengths (events (enc_png L c))) ->
  sum_lengths (event_lengths (events (enc_png L c))) <= Int32.max_signed ->
  returned (enc_png L c) = sum_lengths (event_lengths (events (enc_png L c))).
Proof.
  intros Hdone Hrange Hsum.
  rewrite (event_lengths_done L c Hdone) in *.
  destruct (returned_done L c Hdone) as [_ ->].
  apply Int32Facts.signed_eq.
  pose proof (sum_lengths_nonneg _ Hrange).
  unfold Int32.in_signed_range, Int32.min_signed, Int32.max_signed in *. lia.
Qed.

(** Discharges [Forall Int32.in_unsigned_range l] on a closed list. *)
Ltac lengths_in_range :=
  match goal with
  | |- Forall _ ?l =>
      let l' := eval vm_compute in l in
      replace l with l' by (vm_compute; reflexivity)
  end;
  repeat constructor; vm_compute; discriminate.

(** ** The value returned *)

(** C1 (amended): for every call to [enc_png] that completes without an
    error and whose chunk lengths sum to at most 2^31 - 1, the integer
    returned equals the sink's accumulated [stream_len], i.e. the sum of the
    lengths of all chunks passed to the write callback during the call,
    starting from 0. *)
Theorem returns_bytes_written (L : libpng) (c : caller_state) :
  Forall Int32.in_unsigned_range (event_lengths (events (enc_png L c))) ->
  exit (enc_png L c) = ExitDone ->
  sum_lengths (event_lengths (events (enc_png L c))) <= Int32.max_signed ->
  sink (enc_png L c) = Some (mk_png_stream pngbuf_ptr (returned (enc_png L c)))
  /\ returned (enc_png L c) =
     sum_lengths (event_lengths (events (enc_png L c))).
Proof.
  intros Hrange Hdone Hsum.
  destruct (returned_done L c Hdone) as [Hsink _].
  split; [exact Hsink |]. now apply returned_done_exact.
Qed.

Lemma returns_bytes_written_witness :
  sink (enc_png (library_writing three_calls) gray_2x2)
    = Some (mk_png_stream pngbuf_ptr 10) /\
  returned (enc_png (library_writing three_calls) gray_2x2) = 10.
Proof.
  destruct (returns_bytes_written (library_writing three_calls) gray_2x2)
    as (Hsink & Hret).
  - lengths_in_range.
  - reflexivity.
  - vm_compute. discriminate.
  - split; [rewrite Hsink | rewrite Hret]; reflexivity.
Defined.

(** Beyond that bound the value returned is the sum reduced to a 32-bit
    signed integer. *)
Lemma returned_wraps L c :
  exit (enc_png L c) = ExitDone ->
  returned (enc_png L c) =
    Int32.signed (sum_lengths (event_lengths (events (enc_png L c)))).
Proof.
  intros Hdone. rewrite (event_lengths_done L c Hdone).
  apply (returned_done L c Hdone).
Qed.

(** C1 as stated fails when the stream reaches 2^31 bytes: the call
    completes and returns -2147483648. *)
Lemma returns_bytes_written_counterexample : ~ returns_bytes_written_claim.
Proof.
  intros H.
  pose proof (H (library_writing [WriteData (fun _ => x00) 2147483648])
                gray_2x2) as Hc.
  assert (Hev : event_lengths
                  (events
                     (enc_png
                        (library_writing
                           [WriteData (fun _ => x00) 2147483648])
                        gray_2x2))
                = [2147483648]) by (vm_compute; reflexivity).
  assert (Hret : returned
                   (enc_png
                      (library_writing [WriteData (fun _ => x00) 2147483648])
                      gray_2x2)
                 = -2147483648) by (vm_compute; reflexivity).
  rewrite Hev, Hret in Hc.
  assert (Hneq : -2147483648 <> sum_lengths [2147483648])
    by (vm_compute; discriminate).
  apply Hneq, Hc.
  - repeat constructor; vm_compute; discriminate.
  - vm_compute. reflexivity.
Qed.

(** ** Error results *)


(** Which exit is taken is decided by the library alone. *)
Lemma exit_by_library L c :
  exit (enc_png L c) =
  if negb (create_write_struct_ok L) then ExitWriteStructNull
  else if negb (create_info_struct_ok L) then ExitInfoStructNull
  else if set_write_fn_ok L && set_IHDR_ok L && set_rows_ok L
          && write_png_ok L
       then ExitDone else ExitLongjmp.
Proof.
  on_each_path L c;
    repeat match goal with H : _ = _ :> bool |- _ => rewrite H; clear H end;
    reflexivity.
Qed.




(** The three error results themselves. *)
Example error_results :
  returned (enc_png library_without_write_struct gray_2x2) = -1 /\
  returned (enc_png library_without_info_struct gray_2x2) = -2 /\
  returned (enc_png (library_failing_write three_calls) gray_2x2) = -3.
Proof. vm_compute. repeat split. Qed.

(** C7: when the library's write struct cannot be allocated, [enc_png]
    returns -1 at once: the caller's memory, output buffer included, is
    what it was, the sink is never initialised, and the failed allocation
    is the only thing that happened. *)
Theorem write_struct_failure_does_nothing (L : libpng) (c : caller_state) :
  create_write_struct_ok L = false ->
  returned (enc_png L c) = -1 /\
  exit (enc_png L c) = ExitWriteStructNull /\
  (forall b i, contents (after (enc_png L c)) b i = contents c b i) /\
  sink (enc_png L c) = None /\
  events (enc_png L c) = [EvCreateWriteStruct false].
Proof.
  intros H. rewrite (enc_png_write_struct_null L c H). simpl.
  repeat split; reflexivity.
Qed.

Lemma write_struct_failure_does_nothing_witness :
  returned (enc_png library_without_write_struct gray_2x2) = -1 /\
  events (enc_png library_without_write_struct gray_2x2)
    = [EvCreateWriteStruct false].
Proof.
  destruct (write_struct_failure_does_nothing
              library_without_write_struct gray_2x2)
    as (H1 & _ & _ & _ & H5).
  - reflexivity.
  - split; [exact H1 | exact H5].
Defined.

(** ** Image metadata *)

(** Up to [png_set_IHDR] the events of a call are fixed. *)
Lemma events_reach_IHDR L c :
  create_write_struct_ok L = true -> create_info_struct_ok L = true ->
  set_write_fn_ok L = true ->
  exists rest, events (enc_png L c) = events_to_IHDR c ++ rest.
Proof.
  intros H1 H2 H3.
  on_each_path L c; try congruence; unfold events_to_rows;
    rewrite <- ?app_assoc; eexists; reflexivity.
Qed.

Lemma ihdr_registered_reached L c :
  create_write_struct_ok L = true -> create_info_struct_ok L = true ->
  set_write_fn_ok L = true ->
  ihdr_registered (events (enc_png L c)) = Some (depth_and_color (nbits c)).
Proof.
  intros H1 H2 H3.
  destruct (events_reach_IHDR L c H1 H2 H3) as [rest ->].
  simpl. now destruct (depth_and_color (nbits c)).
Qed.

(** Nothing is registered unless both structs exist and
    [png_set_write_fn] has returned. *)
Lemma ihdr_registered_only_when_reached L c dc :
  ihdr_registered (events (enc_png L c)) = Some dc ->
  create_write_struct_ok L = true /\ create_info_struct_ok L = true /\
  set_write_fn_ok L = true /\ dc = depth_and_color (nbits c).
Proof.
  intros H.
  assert (Hflags : create_write_struct_ok L = true /\
                   create_info_struct_ok L = true /\
                   set_write_fn_ok L = true).
  { revert H. on_each_path L c; try discriminate; auto. }
  destruct Hflags as (H1 & H2 & H3). repeat split; try assumption.
  rewrite ihdr_registered_reached in H by assumption. congruence.
Qed.

(** C2: in every call that reaches [png_set_IHDR] (both structs allocated,
    [png_set_write_fn] returned), the bit depth and colour type registered
    are (8, grey) for [nbits] 8, (8, RGB) for 24 and (8, RGB with alpha)
    for 32. *)
Theorem depth_and_color_registered (L : libpng) (c : caller_state) :
  create_write_struct_ok L = true -> create_info_struct_ok L = true ->
  set_write_fn_ok L = true ->
  (nbits c = 8 ->
   ihdr_registered (events (enc_png L c)) = Some (8, PNG_COLOR_TYPE_GRAY)) /\
  (nbits c = 24 ->
   ihdr_registered (events (enc_png L c)) = Some (8, PNG_COLOR_TYPE_RGB)) /\
  (nbits c = 32 ->
   ihdr_registered (events (enc_png L c))
     = Some (8, PNG_COLOR_TYPE_RGB_ALPHA)).
Proof.
  intros H1 H2 H3. rewrite (ihdr_registered_reached L c H1 H2 H3).
  repeat split; intros ->; reflexivity.
Qed.

Lemma depth_and_color_registered_witness :
  ihdr_registered (events (enc_png (library_writing three_calls) rgba_1x1))
    = Some (8, PNG_COLOR_TYPE_RGB_ALPHA).
Proof.
  pose proof (depth_and_color_registered (library_writing three_calls)
                rgba_1x1 eq_refl eq_refl eq_refl) as (_ & _ & H).
  exact (H eq_refl).
Defined.

(** C8: for a bit depth other than 8, 24 and 32, [enc_png] has no rejecting
    path: the call leaves through the exit it would take for [nbits] 8
    under the same library behaviour, and when it reaches [png_set_IHDR]
    it registers colour type grey with the raw [nbits] as bit depth. *)
Theorem unsupported_depth_falls_through (L : libpng) (c : caller_state) :
  nbits c <> 8 -> nbits c <> 24 -> nbits c <> 32 ->
  exit (enc_png L c) =
    exit (enc_png L (mk_caller_state (contents c) (width c) (height c) 8)) /\
  (create_write_struct_ok L = true -> create_info_struct_ok L = true ->
   set_write_fn_ok L = true ->
   ihdr_registered (events (enc_png L c))
     = Some (nbits c, PNG_COLOR_TYPE_GRAY)).
Proof.
  intros N8 N24 N32. split.
  - now rewrite !exit_by_library.
  - intros H1 H2 H3. rewrite (ihdr_registered_reached L c H1 H2 H3).
    unfold depth_and_color.
    destruct (Z.eqb_spec (nbits c) 24); [contradiction |].
    destruct (Z.eqb_spec (nbits c) 32); [contradiction |]. reflexivity.
Qed.

Lemma unsupported_depth_falls_through_witness :
  exit (enc_png (library_writing three_calls) gray16_1x1) = ExitDone /\
  ihdr_registered (events (enc_png (library_writing three_calls) gray16_1x1))
    = Some (16, PNG_COLOR_TYPE_GRAY).
Proof.
  assert (N8 : nbits gray16_1x1 <> 8) by discriminate.
  assert (N24 : nbits gray16_1x1 <> 24) by discriminate.
  assert (N32 : nbits gray16_1x1 <> 32) by discriminate.
  pose proof (unsupported_depth_falls_through
                (library_writing three_calls) gray16_1x1 N8 N24 N32)
    as [Hexit Hihdr].
  split.
  - rewrite Hexit. reflexivity.
  - exact (Hihdr eq_refl eq_refl eq_refl).
Defined.

(** ** Frame *)

(** The caller's memory at return is the memory at the call, or that
    memory after the callbacks of [png_write_png]. *)
Lemma enc_png_at_contents L c data pngbuf :
  contents (after (enc_png_at L c data pngbuf)) = contents c \/
  contents (after (enc_png_at L c data pngbuf))
    = snd (sink_after (write_png_calls L) (mk_png_stream pngbuf 0)
             (contents c)).
Proof.
  unfold enc_png_at.
  destruct (create_write_struct_ok L); [| left; reflexivity].
  destruct (create_info_struct_ok L); [| left; reflexivity].
  cbn [negb].
  unfold enc_png_body, library_call, png_write_png, bind, log, ret, deref,
    read_stream_len, png_error.
  destruct (set_write_fn_ok L); [| left; reflexivity].
  destruct (set_IHDR_ok L); [| left; reflexivity].
  destruct (set_rows_ok L); [| left; reflexivity].
  cbn -[row_loop depth_and_color]. rewrite run_io_calls_eq.
  destruct (write_png_ok L); right; reflexivity.
Qed.

(** C10 (amended): [enc_png] never modifies its inputs, provided the
    chunks passed to the write callback sum to at most 2^31 - 1 bytes: on
    success and on every error path, the pixel buffer and the cells behind
    [width], [height] and [nbits] (any bytes of the caller that lie clear
    of the part of the output buffer receiving the stream) are
    bit-identical before and after the call. *)
Theorem inputs_unchanged_within_int
    (L : libpng) (c : caller_state) (data pngbuf p : pointer) (n : Z) :
  Forall Int32.in_unsigned_range (written_lengths (write_png_calls L)) ->
  sum_lengths (written_lengths (write_png_calls L)) <= Int32.max_signed ->
  clear_of_output p n pngbuf
    (sum_lengths (written_lengths (write_png_calls L))) ->
  forall i, 0 <= i < n ->
    contents (after (enc_png_at L c data pngbuf)) (fst p) (snd p + i)
    = contents c (fst p) (snd p + i).
Proof.
  intros Hrange Hsum Hclear i Hi.
  destruct (enc_png_at_contents L c data pngbuf) as [-> | ->];
    [reflexivity |].
  apply sink_after_frame; try assumption; cbn [stream_len stream_ptr fst snd].
  all: try lia.
  destruct Hclear as [Hb | [Hlo | Hhi]];
    [left; exact Hb | right; left; lia | right; right; lia].
Qed.

(** The four pixels of a 2x2 image, with the output buffer 2^31 bytes
    further on in the same block and ten bytes written to it. *)
Lemma inputs_unchanged_within_int_witness :
  map (contents
         (after (enc_png_at (library_writing three_calls) gray_2x2
                   data_ptr pngbuf_after_data)) DataBlock) [0; 1; 2; 3]
  = [x0a; x14; x1e; x28].
Proof.
  assert (Hrange : Forall Int32.in_unsigned_range
                     (written_lengths
                        (write_png_calls (library_writing three_calls))))
    by lengths_in_range.
  assert (Hsum : sum_lengths
                   (written_lengths
                      (write_png_calls (library_writing three_calls)))
                 <= Int32.max_signed) by (vm_compute; discriminate).
  assert (Hclear : clear_of_output data_ptr 4 pngbuf_after_data
                     (sum_lengths
                        (written_lengths
                           (write_png_calls (library_writing three_calls)))))
    by (right; left; vm_compute; discriminate).
  pose proof (inputs_unchanged_within_int (library_writing three_calls)
                gray_2x2 data_ptr pngbuf_after_data data_ptr 4
                Hrange Hsum Hclear) as H.
  assert (E : forall i, 0 <= i < 4 ->
                contents
                  (after (enc_png_at (library_writing three_calls) gray_2x2
                            data_ptr pngbuf_after_data)) DataBlock i
                = contents gray_2x2 DataBlock i)
    by (intros i Hi; exact (H i Hi)).
  cbn [map]. rewrite !E by lia. reflexivity.
Defined.

(** C10 as stated fails once [stream_len] has wrapped: with the output
    buffer 2^31 bytes after the pixel buffer, a chunk of 2^31 bytes takes
    [stream_len] to -2^31 and the next chunk is stored over the first
    pixel. *)
Lemma inputs_unchanged_counterexample : ~ inputs_unchanged_claim.
Proof.
  intros H.
  assert (Hrange : Forall Int32.in_unsigned_range
                     (written_lengths
                        (write_png_calls (library_writing wrapping_calls))))
    by lengths_in_range.
  assert (Hclear : clear_of_output data_ptr 4 pngbuf_after_data
                     (sum_lengths
                        (written_lengths
                           (write_png_calls
                              (library_writing wrapping_calls)))))
    by (right; left; vm_compute; discriminate).
  assert (H0 : 0 <= 0 < 4) by lia.
  pose proof (H (library_writing wrapping_calls) gray_2x2 data_ptr
                pngbuf_after_data data_ptr 4 Hrange Hclear 0 H0) as Hbyte.
  vm_compute in Hbyte. discriminate.
Qed.

(** ** The row-pointer view *)

Lemma row_loop_length n : forall j data w b,
  length (row_loop n j data w b) = n.
Proof. induction n as [| n IH]; intros; simpl; [| rewrite IH]; reflexivity. Qed.


Lemma rows_handed_enc_png L c rows :
  rows_handed (events (enc_png L c)) = Some rows ->
  rows = row_loop (Z.to_nat (height c)) 0 data_ptr (width c)
           (Int32.div (nbits c) 8).
Proof.
  on_each_path L c; try discriminate;
    unfold events_to_rows, events_to_IHDR; cbn -[row_loop];
    intros [= <-]; reflexivity.
Qed.

Lemma rows_handed_reached L c :
  create_write_struct_ok L = true -> create_info_struct_ok L = true ->
  set_write_fn_ok L = true -> set_IHDR_ok L = true ->
  rows_handed (events (enc_png L c)) =
  Some (row_loop (Z.to_nat (height c)) 0 data_ptr (width c)
          (Int32.div (nbits c) 8)).
Proof.
  intros H1 H2 H3 H4.
  on_each_path L c; try congruence; reflexivity.
Qed.




(** ** Resources *)

Lemma live_app a : forall b held, live (a ++ b) held = live b (live a held).
Proof. induction a as [| e a IH]; intros; simpl; [| rewrite IH]; reflexivity. Qed.

Lemma filter_all {A} (l : list A) : filter (fun _ => true) l = l.
Proof. induction l as [| x l IH]; simpl; [| rewrite IH]; reflexivity. Qed.

(** Callbacks acquire and release nothing. *)
Lemma live_callback_trace cs : forall io held,
  live (callback_trace cs io) held = held.
Proof.
  induction cs as [| [d l |] cs IH]; intros io held; simpl;
    [reflexivity | |]; rewrite app_nil_r; cbn [negb]; rewrite filter_all;
    apply IH.
Qed.

Lemma first_index_app_left p a b n :
  first_index p a = Some n -> first_index p (a ++ b) = Some n.
Proof.
  revert n. induction a as [| e a IH]; intros n; simpl; [discriminate |].
  destruct (p e); [trivial |].
  destruct (first_index p a) as [k |]; [| discriminate].
  intros [= <-]. now rewrite (IH k eq_refl).
Qed.

Lemma first_index_app_right p a b :
  first_index p a = None ->
  first_index p (a ++ b) =
  match first_index p b with
  | Some n => Some (length a + n)%nat
  | None => None
  end.
Proof.
  induction a as [| e a IH]; simpl.
  - intros _. now destruct (first_index p b).
  - destruct (p e); [discriminate |].
    destruct (first_index p a); [discriminate |]. intros _.
    rewrite IH by reflexivity. now destruct (first_index p b).
Qed.

Lemma first_index_callback_trace p cs : forall io,
  (forall o l, p (EvWriteData o l) = false) -> p EvFlushData = false ->
  first_index p (callback_trace cs io) = None.
Proof.
  induction cs as [| [d l |] cs IH]; intros io Hw Hf; simpl;
    [reflexivity | rewrite Hw | rewrite Hf]; now rewrite IH.
Qed.

Lemma release_time_callback_trace r cs io :
  release_time r (callback_trace cs io) = None.
Proof. apply first_index_callback_trace; now destruct r. Qed.

(** Release times on the successful path: both structs go with the single
    [png_destroy_write_struct], the row array one event later. *)
Lemma release_times_done c cs io :
  let tr := events_to_rows c ++ [EvWritePng] ++ callback_trace cs io
            ++ [EvDestroyWriteStruct true; EvFree] in
  let n := (7 + length (callback_trace cs io))%nat in
  release_time WriteStruct tr = Some n /\
  release_time InfoStruct tr = Some n /\
  release_time RowPointers tr = Some (S n).
Proof.
  cbv zeta. unfold release_time.
  repeat split.
  all: rewrite first_index_app_right by reflexivity.
  all: rewrite first_index_app_right by reflexivity.
  all: rewrite first_index_app_right
         by (apply first_index_callback_trace; reflexivity).
  all: simpl; f_equal; lia.
Qed.

Lemma release_times_write_fault c cs io :
  let tr := events_to_rows c ++ [EvWritePng] ++ callback_trace cs io
            ++ [EvDestroyWriteStruct true] in
  release_time InfoStruct tr = release_time WriteStruct tr /\
  live tr [] = [RowPointers].
Proof.
  cbv zeta. split.
  - unfold release_time.
    rewrite !(first_index_app_right _ (events_to_rows c)) by reflexivity.
    rewrite !(first_index_app_right _ [EvWritePng]) by reflexivity.
    rewrite !first_index_app_right
      by (apply first_index_callback_trace; reflexivity).
    reflexivity.
  - rewrite !live_app, live_callback_trace. reflexivity.
Qed.

(** C5 (amended): on the two allocation-failure exits, on an encode-time
    fault raised before the row-pointer array is allocated, and on the
    successful exit, every resource acquired during the call has been
    released at return; the info struct is released in the same
    [png_destroy_write_struct] call as the write struct, and on the
    successful exit the row-pointer array is freed after that call. *)
Theorem teardown (L : libpng) (c : caller_state) :
  (exit (enc_png L c) = ExitLongjmp ->
   acquire_time RowPointers (events (enc_png L c)) = None) ->
  no_leak (events (enc_png L c)) /\
  (acquire_time InfoStruct (events (enc_png L c)) <> None ->
   release_time InfoStruct (events (enc_png L c))
     = release_time WriteStruct (events (enc_png L c))) /\
  (exit (enc_png L c) = ExitDone ->
   exists t1 t2,
     release_time WriteStruct (events (enc_png L c)) = Some t1 /\
     release_time RowPointers (events (enc_png L c)) = Some t2 /\
     (t1 < t2)%nat).
Proof.
  unfold no_leak.
  on_each_path L c; intros Hfault.
  1-4: split;
       [ reflexivity
       | split;
         [ intros Hacq;
           first [ reflexivity | exfalso; apply Hacq; reflexivity ]
         | discriminate ] ].
  - specialize (Hfault eq_refl). discriminate.
  - specialize (Hfault eq_refl).
    unfold acquire_time in Hfault.
    rewrite (first_index_app_left _ (events_to_rows c) _ 4%nat) in Hfault
      by reflexivity.
    discriminate.
  - destruct (release_times_done c (write_png_calls L) fresh_sink)
      as (Hw & Hi & Hr).
    repeat split.
    + rewrite !live_app, live_callback_trace. reflexivity.
    + intros _. now rewrite Hw, Hi.
    + intros _. do 2 eexists. repeat split; [exact Hw | exact Hr | lia].
Qed.

Lemma teardown_witness :
  no_leak (events (enc_png (library_writing three_calls) gray_2x2)) /\
  release_time WriteStruct
    (events (enc_png (library_writing three_calls) gray_2x2)) = Some 10%nat /\
  release_time RowPointers
    (events (enc_png (library_writing three_calls) gray_2x2)) = Some 11%nat.
Proof.
  assert (Hnofault :
            exit (enc_png (library_writing three_calls) gray_2x2)
              = ExitLongjmp ->
            acquire_time RowPointers
              (events (enc_png (library_writing three_calls) gray_2x2))
              = None)
    by (intros E; vm_compute in E; discriminate).
  pose proof (teardown (library_writing three_calls) gray_2x2 Hnofault)
    as (Hleak & _ & _).
  split; [exact Hleak |]. split; reflexivity.
Defined.

(** C5 as stated fails on a successful call: the row-pointer array,
    acquired last, is freed after the two structs. *)
Lemma teardown_counterexample : ~ teardown_claim.
Proof.
  intros H.
  destruct (H (library_writing three_calls) gray_2x2) as [_ Horder].
  vm_compute in Horder. discriminate.
Qed.

(** When the library faults after the row-pointer array has been
    allocated, in [png_set_rows] or in [png_write_png], [enc_png] returns
    -3 with the array still allocated. *)
Lemma fault_after_malloc_leaks L c :
  exit (enc_png L c) = ExitLongjmp ->
  acquire_time RowPointers (events (enc_png L c)) <> None ->
  returned (enc_png L c) = -3 /\
  live (events (enc_png L c)) [] = [RowPointers].
Proof.
  on_each_path L c; try discriminate; intros _ Hacq;
    try (exfalso; apply Hacq; reflexivity).
  - split; reflexivity.
  - split; [reflexivity |].
    apply (release_times_write_fault c (write_png_calls L) fresh_sink).
Qed.

Example write_fault_leaks_row_pointers :
  let r := enc_png (library_failing_write three_calls) gray_2x2 in
  returned r = -3 /\ live (events r) [] = [RowPointers].
Proof. vm_compute. split; reflexivity. Qed.

(** * Further properties *)

(** ** What the output buffer holds *)

(** Within the range of [int], the callbacks [cs] lay their chunks end to
    end from the current length on. *)
Lemma sink_after_stream cs : forall io m,
  0 <= stream_len io ->
  Forall Int32.in_unsigned_range (written_lengths cs) ->
  stream_len io + sum_lengths (written_lengths cs) <= Int32.max_signed ->
  forall i, 0 <= i < sum_lengths (written_lengths cs) ->
    snd (sink_after cs io m) (fst (stream_ptr io))
        (snd (stream_ptr io) + stream_len io + i)
    = stream_byte cs i.
Proof.
  induction cs as [| [d l |] cs IH]; intros io m Hio Hls Hsum i Hi.
  - unfold sum_lengths in Hi. simpl in Hi. lia.
  - rewrite sink_after_write.
    cbn [written_lengths] in *. rewrite sum_lengths_cons in *.
    inversion Hls as [| x xs Hl Hls']; subst.
    pose proof (sum_lengths_nonneg _ Hls') as Hnn.
    unfold Int32.in_unsigned_range in Hl.
    assert (Hadv : Int32.add_assign_unsigned (stream_len io) l
                   = stream_len io + l).
    { rewrite Int32Facts.add_assign_unsigned_signed.
      apply Int32Facts.signed_eq.
      unfold Int32.in_signed_range, Int32.min_signed, Int32.max_signed in *.
      lia. }
    rewrite Hadv. cbn [stream_byte].
    destruct (Z.ltb_spec i l) as [Hin | Hout].
    + match goal with
      | |- context [sink_after cs ?io' ?m'] =>
          destruct (sink_after_grows cs io' m') as [_ Hkeep]
      end.
      { cbn [stream_len]. lia. }
      { exact Hls'. }
      { cbn [stream_len]. lia. }
      cbn [stream_ptr stream_len] in Hkeep.
      rewrite <- Z.add_assoc, Hkeep by lia.
      replace (snd (stream_ptr io) + (stream_len io + i))
        with (snd (ptr_add (stream_ptr io) (stream_len io)) + i)
        by (simpl; ring).
      change (fst (stream_ptr io))
        with (fst (ptr_add (stream_ptr io) (stream_len io))).
      rewrite memcpy_inside by lia. f_equal. ring.
    + match goal with
      | |- context [sink_after cs ?io' ?m'] =>
          pose proof (IH io' m') as IH'
      end.
      cbn [stream_ptr stream_len] in IH'.
      rewrite <- (IH' ltac:(lia) Hls' ltac:(lia) (i - l) ltac:(lia)).
      f_equal. ring.
  - apply IH; assumption.
Qed.

Lemma reaches_write_png_flags L :
  reaches_write_png L = true ->
  create_write_struct_ok L = true /\ create_info_struct_ok L = true /\
  set_write_fn_ok L = true /\ set_IHDR_ok L = true /\ set_rows_ok L = true.
Proof.
  unfold reaches_write_png. intros H.
  repeat (apply andb_prop in H; destruct H as [H ?]). auto.
Qed.

(** A completed call has passed every library call. *)
Lemma done_reaches_write_png L c :
  exit (enc_png L c) = ExitDone ->
  reaches_write_png L = true /\ write_png_ok L = true.
Proof.
  rewrite exit_by_library. unfold reaches_write_png.
  destruct (create_write_struct_ok L), (create_info_struct_ok L),
    (set_write_fn_ok L), (set_IHDR_ok L), (set_rows_ok L),
    (write_png_ok L); simpl; intros E; try discriminate; auto.
Qed.

(** The sink and the output buffer once [png_write_png] has issued its
    callbacks, when their chunks fit the range of [int]. *)
Lemma written_within_int L c :
  Forall Int32.in_unsigned_range (written_lengths (write_png_calls L)) ->
  sum_lengths (written_lengths (write_png_calls L)) <= Int32.max_signed ->
  fst (written L c)
    = mk_png_stream pngbuf_ptr
        (sum_lengths (written_lengths (write_png_calls L))) /\
  (forall i, 0 <= i < sum_lengths (written_lengths (write_png_calls L)) ->
     snd (written L c) PngBlock i = stream_byte (write_png_calls L) i) /\
  (forall i, i < 0 \/ sum_lengths (written_lengths (write_png_calls L)) <= i ->
     snd (written L c) PngBlock i = contents c PngBlock i).
Proof.
  intros Hrange Hsum. unfold written.
  pose proof (sum_lengths_nonneg _ Hrange) as Hnn.
  destruct (sink_after_grows (write_png_calls L) fresh_sink (contents c))
    as [Hlen _]; try assumption; try (simpl; lia).
  destruct (sink_after_wraps (write_png_calls L) fresh_sink (contents c))
    as [Hptr _].
  { simpl. unfold Int32.in_signed_range, Int32.min_signed, Int32.max_signed.
    lia. }
  simpl in Hlen, Hptr.
  repeat split.
  - destruct (fst (sink_after (write_png_calls L) fresh_sink (contents c)))
      as [p l]. simpl in *. now subst.
  - intros i Hi.
    rewrite <- (sink_after_stream (write_png_calls L) fresh_sink (contents c))
      by (assumption || (simpl; lia)).
    reflexivity.
  - intros i Hi.
    apply sink_after_frame; try assumption; simpl; lia.
Qed.

(** X1: when a call completes and the chunks passed to the write callback
    sum to at most 2^31 - 1 bytes, the first [returned] bytes of the output
    buffer are those chunks laid end to end, in the order they were
    passed, and every other byte of the output buffer is what it was
    before the call. *)
Theorem output_is_chunk_stream (L : libpng) (c : caller_state) :
  exit (enc_png L c) = ExitDone ->
  Forall Int32.in_unsigned_range (written_lengths (write_png_calls L)) ->
  sum_lengths (written_lengths (write_png_calls L)) <= Int32.max_signed ->
  (forall i, 0 <= i < returned (enc_png L c) ->
     contents (after (enc_png L c)) PngBlock i
       = stream_byte (write_png_calls L) i) /\
  (forall i, i < 0 \/ returned (enc_png L c) <= i ->
     contents (after (enc_png L c)) PngBlock i = contents c PngBlock i).
Proof.
  intros Hdone Hrange Hsum.
  destruct (done_reaches_write_png L c Hdone) as [Hreach Hok].
  destruct (reaches_write_png_flags L Hreach) as (H1 & H2 & H3 & H4 & H5).
  rewrite (enc_png_done L c H1 H2 H3 H4 H5 Hok).
  cbn [returned after caller_after_write contents].
  destruct (written_within_int L c Hrange Hsum) as (Hio & Hin & Hout).
  rewrite Hio. cbn [stream_len]. split; assumption.
Qed.

Lemma output_is_chunk_stream_witness :
  map (contents (after (enc_png (library_writing three_calls) gray_2x2))
         PngBlock) [0; 7; 8; 9]
    = [x89; x0a; x49; x48] /\
  contents (after (enc_png (library_writing three_calls) gray_2x2))
    PngBlock 10 = x00.
Proof.
  assert (Hdone : exit (enc_png (library_writing three_calls) gray_2x2)
                  = ExitDone) by reflexivity.
  assert (Hrange : Forall Int32.in_unsigned_range
                     (written_lengths
                        (write_png_calls (library_writing three_calls))))
    by lengths_in_range.
  assert (Hsum : sum_lengths
                   (written_lengths
                      (write_png_calls (library_writing three_calls)))
                 <= Int32.max_signed) by (vm_compute; discriminate).
  pose proof (output_is_chunk_stream (library_writing three_calls) gray_2x2
                Hdone Hrange Hsum) as [Hin Hout].
  assert (Hret : returned (enc_png (library_writing three_calls) gray_2x2)
                 = 10) by reflexivity.
  rewrite Hret in Hin, Hout.
  split.
  - cbn [map]. rewrite !Hin by lia. reflexivity.
  - rewrite Hout by lia. reflexivity.
Defined.

(** X2: when [png_write_png] raises an error after passing chunks of at
    most 2^31 - 1 bytes in all, [enc_png] returns -3 and not the count,
    while the sink has counted those bytes and the output buffer holds
    them, laid end to end from its start, the rest of it untouched. *)
Theorem write_fault_leaves_partial_stream (L : libpng) (c : caller_state) :
  reaches_write_png L = true ->
  write_png_ok L = false ->
  Forall Int32.in_unsigned_range (written_lengths (write_png_calls L)) ->
  sum_lengths (written_lengths (write_png_calls L)) <= Int32.max_signed ->
  returned (enc_png L c) = -3 /\
  sink (enc_png L c)
    = Some (mk_png_stream pngbuf_ptr
              (sum_lengths (written_lengths (write_png_calls L)))) /\
  (forall i, 0 <= i < sum_lengths (written_lengths (write_png_calls L)) ->
     contents (after (enc_png L c)) PngBlock i
       = stream_byte (write_png_calls L) i) /\
  (forall i, i < 0 \/ sum_lengths (written_lengths (write_png_calls L)) <= i ->
     contents (after (enc_png L c)) PngBlock i = contents c PngBlock i).
Proof.
  intros Hreach Hfault Hrange Hsum.
  destruct (reaches_write_png_flags L Hreach) as (H1 & H2 & H3 & H4 & H5).
  rewrite (enc_png_write_png_fault L c H1 H2 H3 H4 H5 Hfault).
  cbn [returned sink after caller_after_write contents].
  destruct (written_within_int L c Hrange Hsum) as (Hio & Hin & Hout).
  rewrite Hio. repeat split; assumption.
Qed.

Lemma write_fault_leaves_partial_stream_witness :
  returned (enc_png (library_failing_write three_calls) gray_2x2) = -3 /\
  sink (enc_png (library_failing_write three_calls) gray_2x2)
    = Some (mk_png_stream pngbuf_ptr 10) /\
  contents (after (enc_png (library_failing_write three_calls) gray_2x2))
    PngBlock 9 = x48.
Proof.
  assert (Hrange : Forall Int32.in_unsigned_range
                     (written_lengths
                        (write_png_calls (library_failing_write three_calls))))
    by lengths_in_range.
  assert (Hsum : sum_lengths
                   (written_lengths
                      (write_png_calls (library_failing_write three_calls)))
                 <= Int32.max_signed) by (vm_compute; discriminate).
  pose proof (write_fault_leaves_partial_stream
                (library_failing_write three_calls) gray_2x2
                eq_refl eq_refl Hrange Hsum) as (Hret & Hsink & Hin & _).
  split; [exact Hret |]. split; [exact Hsink |].
  rewrite Hin; [reflexivity | vm_compute; split; [discriminate | reflexivity]].
Defined.

Lemma sink_after_no_writes cs : forall io m,
  written_lengths cs = [] -> sink_after cs io m = (io, m).
Proof.
  induction cs as [| [d l |] cs IH]; intros io m H; simpl in *;
    [reflexivity | discriminate | now apply IH].
Qed.

(** X3: the caller's memory changes only through the write callback: a
    call during which the write callback is never entered, whichever exit
    it takes, leaves every byte of the pixel buffer and of the output
    buffer as it was. *)
Theorem memory_changes_only_through_writes (L : libpng) (c : caller_state) :
  event_lengths (events (enc_png L c)) = [] ->
  forall b i, contents (after (enc_png L c)) b i = contents c b i.
Proof.
  on_each_path L c; intros Hnone b i; try reflexivity;
    rewrite !event_lengths_app, event_lengths_callback_trace,
      event_lengths_to_rows in Hnone;
    simpl in Hnone; rewrite app_nil_r in Hnone;
    unfold caller_after_write, written; cbn [contents];
    now rewrite sink_after_no_writes.
Qed.

Lemma memory_changes_only_through_writes_witness :
  contents (after (enc_png (library_writing [FlushData; FlushData]) gray_2x2))
    PngBlock 0 = x00 /\
  contents (after (enc_png (library_writing [FlushData; FlushData]) gray_2x2))
    DataBlock 3 = x28.
Proof.
  pose proof (memory_changes_only_through_writes
                (library_writing [FlushData; FlushData]) gray_2x2 eq_refl)
    as H.
  split; rewrite H; reflexivity.
Defined.

(** X4: when the info struct cannot be allocated, [enc_png] destroys the
    write struct it had obtained and returns -2: nothing is left
    allocated, the caller's memory is what it was, the sink is never
    initialised and no other library call is made. *)
Theorem info_struct_failure_releases_write_struct
    (L : libpng) (c : caller_state) :
  create_write_struct_ok L = true ->
  create_info_struct_ok L = false ->
  returned (enc_png L c) = -2 /\
  no_leak (events (enc_png L c)) /\
  events (enc_png L c)
    = [EvCreateWriteStruct true; EvCreateInfoStruct false;
       EvDestroyWriteStruct false] /\
  sink (enc_png L c) = None /\
  (forall b i, contents (after (enc_png L c)) b i = contents c b i).
Proof.
  intros H1 H2. rewrite (enc_png_info_struct_null L c H1 H2).
  cbn [returned events sink after]. repeat split; reflexivity.
Qed.

Lemma info_struct_failure_releases_write_struct_witness :
  returned (enc_png library_without_info_struct gray_2x2) = -2 /\
  no_leak (events (enc_png library_without_info_struct gray_2x2)).
Proof.
  pose proof (info_struct_failure_releases_write_struct
                library_without_info_struct gray_2x2 eq_refl eq_refl)
    as (Hret & Hleak & _).
  split; [exact Hret | exact Hleak].
Defined.

(** ** Flushes and empty chunks *)

Lemma memcpy_ext m1 m2 dest src n :
  (forall b i, m1 b i = m2 b i) ->
  forall b i, memcpy m1 dest src n b i = memcpy m2 dest src n b i.
Proof.
  intros H b i. unfold memcpy.
  destruct (block_eqb b (fst dest) && (snd dest <=? i) && (i <? snd dest + n));
    [reflexivity | apply H].
Qed.

(** The sink does not look at the buffer it writes to. *)
Lemma sink_after_ext cs : forall io m1 m2,
  (forall b i, m1 b i = m2 b i) ->
  fst (sink_after cs io m1) = fst (sink_after cs io m2) /\
  forall b i, snd (sink_after cs io m1) b i = snd (sink_after cs io m2) b i.
Proof.
  induction cs as [| [d l |] cs IH]; intros io m1 m2 H.
  - split; [reflexivity | exact H].
  - rewrite !sink_after_write. apply IH. now apply memcpy_ext.
  - apply IH. exact H.
Qed.

Lemma sink_after_effective cs : forall io m,
  Int32.in_signed_range (stream_len io) ->
  fst (sink_after (filter effective cs) io m) = fst (sink_after cs io m) /\
  forall b i,
    snd (sink_after (filter effective cs) io m) b i
    = snd (sink_after cs io m) b i.
Proof.
  induction cs as [| [d l |] cs IH]; intros io m Hio.
  - split; reflexivity.
  - cbn [filter effective]. destruct (Z.eqb_spec l 0) as [-> | Hl];
      cbn [negb].
    + rewrite sink_after_write.
      assert (Hsame : Int32.add_assign_unsigned (stream_len io) 0
                      = stream_len io).
      { rewrite Int32Facts.add_assign_unsigned_signed, Z.add_0_r.
        now apply Int32Facts.signed_eq. }
      rewrite Hsame.
      replace (mk_png_stream (stream_ptr io) (stream_len io)) with io
        by now destruct io.
      destruct (IH io m Hio) as [Hfst Hsnd].
      destruct (sink_after_ext cs io m
                  (memcpy m (ptr_add (stream_ptr io) (stream_len io)) d 0))
        as [Efst Esnd].
      { intros b i. symmetry. apply memcpy_outside. lia. }
      split; [congruence |].
      intros b i. now rewrite Hsnd, Esnd.
    + rewrite !sink_after_write. apply IH.
      cbn [stream_len]. rewrite Int32Facts.add_assign_unsigned_signed.
      apply Int32Facts.signed_range.
  - cbn [filter effective]. simpl. apply IH. exact Hio.
Qed.

(** X5: flushes and empty chunks are idle: a call in which the library
    interleaves calls of the flush callback, or writes of zero bytes, with
    its writes takes the same exit, returns the same integer and leaves
    the same sink and the same bytes in the caller's memory as the call
    without them. *)
Theorem idle_calls_have_no_effect (L : libpng) (c : caller_state) :
  exit (enc_png (without_idle_calls L) c) = exit (enc_png L c) /\
  returned (enc_png (without_idle_calls L) c) = returned (enc_png L c) /\
  sink (enc_png (without_idle_calls L) c) = sink (enc_png L c) /\
  forall b i,
    contents (after (enc_png (without_idle_calls L) c)) b i
    = contents (after (enc_png L c)) b i.
Proof.
  assert (Hfresh : Int32.in_signed_range (stream_len fresh_sink)).
  { simpl. unfold Int32.in_signed_range, Int32.min_signed, Int32.max_signed.
    lia. }
  destruct (sink_after_effective (write_png_calls L) fresh_sink (contents c)
              Hfresh) as [Hfst Hsnd].
  on_each_path L c.
  - rewrite (enc_png_write_struct_null (without_idle_calls L) c)
      by assumption. repeat split; reflexivity.
  - rewrite (enc_png_info_struct_null (without_idle_calls L) c)
      by assumption. repeat split; reflexivity.
  - rewrite (enc_png_set_write_fn_fault (without_idle_calls L) c)
      by assumption. repeat split; reflexivity.
  - rewrite (enc_png_set_IHDR_fault (without_idle_calls L) c)
      by assumption. repeat split; reflexivity.
  - rewrite (enc_png_set_rows_fault (without_idle_calls L) c)
      by assumption. repeat split; reflexivity.
  - rewrite (enc_png_write_png_fault (without_idle_calls L) c)
      by assumption.
    cbn [exit returned sink after caller_after_write contents].
    unfold written. cbn [write_png_calls without_idle_calls].
    rewrite Hfst. repeat split; try reflexivity. exact Hsnd.
  - rewrite (enc_png_done (without_idle_calls L) c) by assumption.
    cbn [exit returned sink after caller_after_write contents].
    unfold written. cbn [write_png_calls without_idle_calls].
    rewrite Hfst. repeat split; try reflexivity. exact Hsnd.
Qed.

(** ** Resources on every path *)

(** X6: whichever exit a call takes, the write struct and the info struct
    are released before it returns; the only resource that can remain
    allocated is the row-pointer array. *)
Theorem engine_structs_always_released (L : libpng) (c : caller_state) :
  live (events (enc_png L c)) [] = [] \/
  live (events (enc_png L c)) [] = [RowPointers].
Proof.
  on_each_path L c; try (left; reflexivity).
  - right. reflexivity.
  - right.
    apply (release_times_write_fault c (write_png_calls L) fresh_sink).
  - left. rewrite !live_app, live_callback_trace. reflexivity.
Qed.

Lemma structs_safe_app a : forall b held,
  structs_safe (a ++ b) held
  = structs_safe a held && structs_safe b (live a held).
Proof.
  induction a as [| e a IH]; intros b held; [reflexivity |].
  cbn [app structs_safe live]. rewrite IH. now rewrite andb_assoc.
Qed.

(** Callbacks are safe as long as the write struct exists. *)
Lemma structs_safe_callback_trace cs : forall io held,
  mem_resource WriteStruct held = true ->
  structs_safe (callback_trace cs io) held = true.
Proof.
  induction cs as [| [d l |] cs IH]; intros io held Hheld;
    [reflexivity | |];
    cbn [callback_trace structs_safe struct_arguments releases acquires
         filter forallb];
    rewrite Hheld, app_nil_r; cbn [negb mem_resource existsb];
    rewrite filter_all; cbn [andb]; now apply IH.
Qed.

(** X7: on every returning path, each library call and each callback is
    given structs that exist at that point: no call is made on a struct
    after [png_destroy_write_struct], no struct is destroyed twice or
    without having been created, and none is created twice.  The row
    array plays no part in the statement. *)
Theorem structs_used_safely (L : libpng) (c : caller_state) :
  structs_safe (events (enc_png L c)) [] = true.
Proof.
  on_each_path L c; try reflexivity.
  - rewrite !structs_safe_app, live_callback_trace.
    rewrite structs_safe_callback_trace by reflexivity. reflexivity.
  - rewrite !structs_safe_app, live_callback_trace.
    rewrite structs_safe_callback_trace by reflexivity. reflexivity.
Qed.

(** ** More on the row-pointer view *)

Lemma row_loop_zero_bytes n : forall j data w p,
  In p (row_loop n j data w 0) -> p = ptr_add data 0.
Proof.
  induction n as [| n IH]; intros j data w p Hin; [contradiction |].
  destruct Hin as [<- | Hin]; [| now apply (IH (j + 1) data w)].
  unfold Int32.mul. now rewrite Z.mul_0_r.
Qed.

(** X8: for a bit depth of less than 8 (PNG's 1, 2 and 4 bits per pixel
    among them) the number of bytes per pixel, [nbits / 8], is 0, and every
    pointer of the view handed to the library is the start of the pixel
    buffer: all rows are the first row. *)
Theorem sub_byte_depth_rows_coincide
    (L : libpng) (c : caller_state) (rows : list pointer) :
  rows_handed (events (enc_png L c)) = Some rows ->
  0 <= nbits c < 8 ->
  forall p, In p rows -> p = data_ptr.
Proof.
  intros Hrows Hnb p Hin.
  rewrite (rows_handed_enc_png L c rows Hrows) in Hin.
  unfold Int32.div in Hin. rewrite Z.quot_small in Hin by exact Hnb.
  now apply row_loop_zero_bytes in Hin.
Qed.

Lemma sub_byte_depth_rows_coincide_witness :
  rows_handed (events (enc_png (library_writing three_calls) gray4_2x2))
    = Some [data_ptr; data_ptr].
Proof.
  assert (Hnb : 0 <= nbits gray4_2x2 < 8)
    by (split; [discriminate | reflexivity]).
  pose proof (sub_byte_depth_rows_coincide (library_writing three_calls)
                gray4_2x2
                [(DataBlock, 0); (DataBlock, 0)] eq_refl Hnb) as H.
  rewrite <- (H (DataBlock, 0) (or_introl eq_refl)). reflexivity.
Defined.

(** X9: the view handed to the library has [max 0 height] entries,
    whatever [height] is: for a zero or negative [height] [enc_png] does
    not stop but calls [png_set_rows] with an empty view. *)
Theorem row_view_length
    (L : libpng) (c : caller_state) (rows : list pointer) :
  rows_handed (events (enc_png L c)) = Some rows ->
  Z.of_nat (length rows) = Z.max 0 (height c) /\
  (height c <= 0 -> rows = []).
Proof.
  intros Hrows.
  pose proof (rows_handed_enc_png L c rows Hrows) as ->.
  rewrite row_loop_length. split.
  - lia.
  - intros Hh. replace (Z.to_nat (height c)) with O by lia. reflexivity.
Qed.

Lemma row_view_length_witness :
  rows_handed (events (enc_png (library_writing three_calls) gray_2x0))
    = Some [] /\
  Z.of_nat (@length pointer []) = Z.max 0 (height gray_2x0).
Proof.
  pose proof (row_view_length (library_writing three_calls) gray_2x0 []
                eq_refl) as (Hlen & _).
  split; [reflexivity | exact Hlen].
Defined.

(** ** Beyond the range of [int] *)

(** X11: the value a completed call returns is always the sink's
    [stream_len], which is the sum of the chunk lengths reduced to a
    32-bit signed integer: it lies between -2^31 and 2^31 - 1 whatever the
    number of bytes written, and the sink still points at the start of the
    output buffer. *)
Theorem return_value_is_reduced_sum (L : libpng) (c : caller_state) :
  exit (enc_png L c) = ExitDone ->
  sink (enc_png L c)
    = Some (mk_png_stream pngbuf_ptr (returned (enc_png L c))) /\
  returned (enc_png L c)
    = Int32.signed (sum_lengths (event_lengths (events (enc_png L c)))) /\
  Int32.in_signed_range (returned (enc_png L c)).
Proof.
  intros Hdone.
  destruct (returned_done L c Hdone) as [Hsink Hret].
  split; [exact Hsink |]. split.
  - now rewrite (event_lengths_done L c Hdone).
  - rewrite Hret. apply Int32Facts.signed_range.
Qed.

(** Two chunks of 2^31 bytes each: the call completes and returns 0. *)
Lemma return_value_is_reduced_sum_witness :
  returned (enc_png (library_writing two_huge_calls) gray_2x2) = 0.
Proof.
  assert (Hdone : exit (enc_png (library_writing two_huge_calls) gray_2x2)
                  = ExitDone) by (vm_compute; reflexivity).
  pose proof (return_value_is_reduced_sum (library_writing two_huge_calls)
                gray_2x2 Hdone) as (_ & Hret & _).
  rewrite Hret. vm_compute. reflexivity.
Defined.

(** ** The row-pointer array on a late fault *)

(** X10: when both structs are allocated and the library raises its error
    after [malloc], that is in [png_set_rows] or in [png_write_png],
    [enc_png] destroys the two structs and returns -3 without freeing the
    row-pointer array, which remains allocated. *)
Theorem late_fault_keeps_row_pointers (L : libpng) (c : caller_state) :
  create_write_struct_ok L = true -> create_info_struct_ok L = true ->
  set_write_fn_ok L = true -> set_IHDR_ok L = true ->
  set_rows_ok L && write_png_ok L = false ->
  returned (enc_png L c) = -3 /\
  live (events (enc_png L c)) [] = [RowPointers] /\
  release_time RowPointers (events (enc_png L c)) = None.
Proof.
  intros H1 H2 H3 H4 Hlate.
  destruct (set_rows_ok L) eqn:H5.
  - simpl in Hlate.
    rewrite (enc_png_write_png_fault L c H1 H2 H3 H4 H5 Hlate).
    cbn [returned events]. split; [reflexivity |]. split.
    + apply (release_times_write_fault c (write_png_calls L) fresh_sink).
    + unfold release_time.
      rewrite first_index_app_right by reflexivity.
      rewrite first_index_app_right by reflexivity.
      rewrite first_index_app_right
        by (apply first_index_callback_trace; reflexivity).
      reflexivity.
  - rewrite (enc_png_set_rows_fault L c H1 H2 H3 H4 H5).
    repeat split; reflexivity.
Qed.

Lemma late_fault_keeps_row_pointers_witness :
  returned (enc_png (library_failing_write three_calls) gray_2x2) = -3 /\
  live (events (enc_png (library_failing_write three_calls) gray_2x2)) []
    = [RowPointers].
Proof.
  pose proof (late_fault_keeps_row_pointers
                (library_failing_write three_calls) gray_2x2
                eq_refl eq_refl eq_refl eq_refl eq_refl) as (Hret & Hlive & _).
  split; [exact Hret | exact Hlive].
Defined.
